(** * image_sample_skip.py: the distributed sampling driver

    A shallow embedding of [main] of [image_sample_skip.py]: the
    accumulate-until-enough sampling loop, the post-processing of the raw
    samples into uint8 images, the collective gather, and the final
    concatenate / truncate / save step.

    The diffusion library, torch, torch.distributed and the logger are
    external: their calls are recorded as events of a trace, and what they
    return is given by the oracles of an environment record [Env]. *)

From Stdlib Require Import QArith Qround Lqa Ascii.
From stdpp Require Import gmap strings list pretty.

Open Scope Z_scope.

(** ** Outcomes *)

Inductive exn := ValueError | RuntimeError | IndexError.

Inductive outcome (A : Type) :=
  | Ok (a : A)
  | Raise (e : exn)
  | Pending.
Arguments Ok {A} a.
Arguments Raise {A} e.
Arguments Pending {A}.

(** ** Arrays: numpy arrays and torch tensors as a shape and row-major data *)

Record ndarray (A : Type) := NdArray { shape : list nat; data : list A }.
Arguments NdArray {A} shape data.
Arguments shape {A} n.
Arguments data {A} n.

Definition numel (s : list nat) : nat := foldr Nat.mul 1%nat s.

Definition wf_array {A} (a : ndarray A) : Prop :=
  length (data a) = numel (shape a).

(** [x.permute(0, 2, 3, 1)]: element [(i, y, x, k)] of the result is element
    [(i, k, y, x)] of the argument; torch raises on a tensor that does not
    have four dimensions. *)
Definition permute_data {A} (n c h w : nat) (d : list A) : list A :=
  i ← seq 0 n; y ← seq 0 h; x ← seq 0 w; k ← seq 0 c;
  option_list (d !! (((i * c + k) * h + y) * w + x)%nat).

Definition permute_0231 {A} (t : ndarray A) : outcome (ndarray A) :=
  match shape t with
  | [n; c; h; w] => Ok (NdArray [n; h; w; c] (permute_data n c h w (data t)))
  | _ => Raise RuntimeError
  end.

(** [np.concatenate(l, axis=0)]: a ValueError on an empty list, on a
    zero-dimensional array and on arrays whose trailing dimensions differ. *)
Definition trailing_dims {A} (a : ndarray A) : option (list nat) :=
  match shape a with
  | [] => None
  | _ :: tl => Some tl
  end.

Definition leading_dim {A} (a : ndarray A) : nat := hd 0%nat (shape a).

Definition np_concatenate {A} (l : list (ndarray A)) : outcome (ndarray A) :=
  match l with
  | [] => Raise ValueError
  | a :: _ =>
      match trailing_dims a with
      | None => Raise ValueError
      | Some tl =>
          if forallb (λ b, bool_decide (trailing_dims b = Some tl)) l
          then Ok (NdArray (sum_list (leading_dim <$> l) :: tl)
                     (mjoin (data <$> l)))
          else Raise ValueError
      end
  end.

(** [a[:k]] for a Python int [k]: the first [k] rows, all of them when there
    are fewer, and for a negative [k] all but the last [-k]. *)
Definition slice_rows (n0 : nat) (k : Z) : nat :=
  if 0 <=? k then Nat.min (Z.to_nat k) n0
  else Z.to_nat (Z.of_nat n0 + k).

Definition slice_upto {A} (a : ndarray A) (k : Z) : outcome (ndarray A) :=
  match shape a with
  | [] => Raise IndexError
  | n0 :: tl =>
      let r := slice_rows n0 k in
      Ok (NdArray (r :: tl) (take (r * numel tl) (data a)))
  end.

(** ** Floating-point samples

    A float is a rational, an infinity or a NaN.  The rounding of the
    tensor's float format is the section variable [round]; nothing is
    assumed about it. *)

Inductive fp := Fin (q : Q) | PosInf | NegInf | NaN.

Section Postprocess.
Variable round : Q → fp.
(** What the cast to uint8 yields on a value that is not finite (torch
    leaves it open). *)
Variable cast_nonfinite : Z.

Definition fadd (x : fp) (c : Q) : fp :=
  match x with
  | Fin q => round (q + c)
  | other => other
  end.

(** Multiplication by a positive constant. *)
Definition fmul_pos (x : fp) (c : Q) : fp :=
  match x with
  | Fin q => round (q * c)
  | other => other
  end.

(** [x.clamp(lo, hi)]: [min(max(x, lo), hi)], a NaN stays a NaN. *)
Definition clamp (lo hi : Q) (x : fp) : fp :=
  match x with
  | Fin q =>
      if Qle_bool q lo then Fin lo
      else if Qle_bool hi q then Fin hi else Fin q
  | PosInf => Fin hi
  | NegInf => Fin lo
  | NaN => NaN
  end.

(** [x.to(th.uint8)]: truncation towards zero, stored in eight bits. *)
Definition to_uint8 (x : fp) : Z :=
  match x with
  | Fin q => Z.quot (Qnum q) (Zpos (Qden q)) mod 256
  | _ => cast_nonfinite mod 256
  end.

(** Line 80: [((sample + 1) * 127.5).clamp(0, 255).to(th.uint8)]. *)
Definition pixel (x : fp) : Z :=
  to_uint8 (clamp 0 255 (fmul_pos (fadd x 1) (255 # 2))).

Definition to_uint8_image (t : ndarray fp) : ndarray Z :=
  NdArray (shape t) (pixel <$> data t).
End Postprocess.

(** ** Command-line arguments, external calls and the event trace *)

(** Values of the guidance options; their types are fixed by the defaults of
    the external [sag_defaults], which the script only passes along. *)
Inductive pyval :=
  | PInt (z : Z) | PFloat (x : fp) | PBool (b : bool) | PStr (s : string) | PNone.

Record Args := {
  num_samples : Z;
  batch_size : Z;
  image_size : Z;
  class_cond : bool;
  use_ddim : bool;
  clip_denoised : bool;
  use_fp16 : bool;
  model_path : string;
  sel_attn_depth : pyval;
  sel_attn_block : pyval;
  guide_start : pyval;
  guide_scale : pyval;
  blur_sigma : pyval
}.

Inductive sample_fn := p_sample_loop | ddim_sample_loop.

(** The arguments of one call [sample_fn(model, shape, clip_denoised=...,
    model_kwargs=..., guidance_kwargs=...)]. *)
Record sample_call := {
  call_fn : sample_fn;
  call_shape : list Z;
  call_clip_denoised : bool;
  call_model_kwargs : gmap string (ndarray Z);
  call_guidance_kwargs : gmap string pyval
}.

Inductive event :=
  | EvSetupDist
  | EvLoggerConfigure (dir : string)
  | EvDumpConfig (path : string)
  | EvCreateModel (depth block : pyval)
  | EvLoadStateDict (path : string)
  | EvModelToDevice
  | EvConvertToFp16
  | EvModelEval
  | EvLog (msg : string)
  | EvRandint (low high size : Z)
  | EvSample (c : sample_call)
  | EvAllGather (buffers : nat) (tensor : ndarray Z)
  | EvSavez (path : string) (arrays : list (ndarray Z))
  | EvBarrier.

(** A computation returns, raises, or is pending (out of fuel, or blocked
    in a collective that a failed peer never joins), and emits events. *)
Definition M (A : Type) : Type := outcome A * list event.

Definition ret {A} (a : A) : M A := (Ok a, []).

Definition bind {A B} (m : M A) (f : A → M B) : M B :=
  match m.1 with
  | Ok a => ((f a).1, m.2 ++ (f a).2)
  | Raise e => (Raise e, m.2)
  | Pending => (Pending, m.2)
  end.

Definition emit (e : event) : M unit := (Ok tt, [e]).

Definition lift {A} (o : outcome A) : M A := (o, []).

#[global] Instance M_ret : MRet M := @ret.
#[global] Instance M_bind : MBind M := λ A B f m, bind m f.

(** [os.path.join(a, b)] on POSIX paths. *)
Fixpoint ends_with_slash (s : string) : bool :=
  match s with
  | EmptyString => false
  | String c EmptyString => bool_decide (c = "/"%char)
  | String _ s' => ends_with_slash s'
  end.

Definition os_path_join (a b : string) : string :=
  if String.prefix "/" b then b
  else if bool_decide (a = EmptyString) || ends_with_slash a then a +:+ b
  else a +:+ "/" +:+ b.

(** A collective completes when every participant contributes. *)
Fixpoint all_gather {A} (contribs : list (outcome A)) : outcome (list A) :=
  match contribs with
  | [] => Ok []
  | Ok a :: rest =>
      match all_gather rest with
      | Ok l => Ok (a :: l)
      | _ => Pending
      end
  | _ :: _ => Pending
  end.

(** ** The environment of a run

    Everything the script reads from outside: the parsed command line, the
    process group, and what the external calls return. *)
Record Env := {
  (** The parsed command line. *)
  env_args : Args;
  (** [dist.get_world_size()] and [dist.get_rank()]. *)
  env_world_size : Z;
  env_rank : Z;
  (** [NUM_CLASSES] of the external [script_util]. *)
  env_NUM_CLASSES : Z;
  (** [get_datetime()], [logger.get_dir()], and the texts of the two clock
      readings logged at the end. *)
  env_save_name : string;
  env_logger_dir : string;
  env_now_str : string;
  env_total_seconds_str : string;
  (** Float rounding and the cast of values that are not finite. *)
  env_round : Q → fp;
  env_cast_nonfinite : Z;
  (** The external sampling routines: what the call of worker [r] in
      iteration [k] returns, and the guidance dictionary as the callee
      leaves it (the dictionary is passed by reference). *)
  env_sample_loop : nat → nat → sample_call → ndarray fp * gmap string pyval;
  (** [th.randint] of worker [r] in iteration [k]. *)
  env_th_randint : nat → nat → ndarray Z
}.

(** The variables of [main] that live across iterations; [iter] counts the
    iterations done and indexes the oracles. *)
Record state := State {
  all_images : list (ndarray Z);
  all_labels : list (ndarray Z);
  guidance_kwargs : gmap string pyval;
  iter : nat
}.

(** ** The script *)

Section Script.
Variable env : Env.

Local Abbreviation args := (env_args env).
Local Abbreviation world_size := (env_world_size env).
Local Abbreviation rank := (env_rank env).
Local Abbreviation NUM_CLASSES := (env_NUM_CLASSES env).
Local Abbreviation save_name := (env_save_name env).
Local Abbreviation logger_dir := (env_logger_dir env).
Local Abbreviation now_str := (env_now_str env).
Local Abbreviation total_seconds_str := (env_total_seconds_str env).
Local Abbreviation round := (env_round env).
Local Abbreviation cast_nonfinite := (env_cast_nonfinite env).
Local Abbreviation sample_loop := (env_sample_loop env).
Local Abbreviation th_randint := (env_th_randint env).

Definition workers : list nat := seq 0 (Z.to_nat world_size).

(** Lines 56-59. *)
Definition guidance_kwargs0 : gmap string pyval :=
  <["blur_sigma" := blur_sigma args]>
    (<["guide_scale" := guide_scale args]>
       (<["guide_start" := guide_start args]> ∅)).

(** Lines 64-69: the class labels drawn when [class_cond] is set. *)
Definition draw_classes (r k : nat) : option (ndarray Z) :=
  if class_cond args then Some (th_randint r k) else None.

Definition model_kwargs_of (classes : option (ndarray Z))
  : gmap string (ndarray Z) :=
  match classes with
  | Some c => <["y" := c]> ∅
  | None => ∅
  end.

(** Lines 70-79: the callee and its arguments. *)
Definition chosen_sample_fn : sample_fn :=
  if negb (use_ddim args) then p_sample_loop else ddim_sample_loop.

Definition make_call (r k : nat) (gk : gmap string pyval) : sample_call :=
  {| call_fn := chosen_sample_fn;
     call_shape := [batch_size args; 3; image_size args; image_size args];
     call_clip_denoised := clip_denoised args;
     call_model_kwargs := model_kwargs_of (draw_classes r k);
     call_guidance_kwargs := gk |}.

(** Lines 80-82: scale, clamp, cast, then move the channels last. *)
Definition postprocess (raw : ndarray fp) : outcome (ndarray Z) :=
  permute_0231 (to_uint8_image round cast_nonfinite raw).

(** Every worker runs this script: the guidance dictionary of worker [r]
    at the start of iteration [k], and the tensor it contributes to the
    gather of that iteration. *)
Fixpoint worker_gk (r k : nat) : gmap string pyval :=
  match k with
  | O => guidance_kwargs0
  | S k' => (sample_loop r k' (make_call r k' (worker_gk r k'))).2
  end.

Definition contribution (r k : nat) : outcome (ndarray Z) :=
  postprocess (sample_loop r k (make_call r k (worker_gk r k))).1.

Definition me : nat := Z.to_nat rank.

(** Line 63. *)
Definition loop_cond (st : state) : bool :=
  Z.of_nat (length (all_images st)) * batch_size args <? num_samples args.

(** Lines 64-93. *)
Definition loop_body (st : state) : M state :=
  let k := iter st in
  (if class_cond args
   then emit (EvRandint 0 NUM_CLASSES (batch_size args))
   else mret tt);;
  let c := make_call me k (guidance_kwargs st) in
  emit (EvSample c);;
  let '(raw, gk') := sample_loop me k c in
  sample ← lift (postprocess raw);
  emit (EvAllGather (length workers) sample);;
  gathered_samples ← lift (all_gather ((λ r, contribution r k) <$> workers));
  let images := all_images st ++ gathered_samples in
  labels ←
    (if class_cond args
     then emit (EvAllGather (length workers) (th_randint me k));;
          mret (all_labels st ++ ((λ r, th_randint r k) <$> workers))
     else mret (all_labels st));
  emit (EvLog ("created "
               +:+ pretty (Z.of_nat (length images) * batch_size args)
               +:+ " samples"));;
  mret (State images labels gk' (S k)).

Fixpoint sampling_loop (fuel : nat) (st : state) : M state :=
  if loop_cond st then
    match fuel with
    | O => lift Pending
    | S fuel' => st' ← loop_body st; sampling_loop fuel' st'
    end
  else mret st.

Definition init_state : state := State [] [] guidance_kwargs0 0.

(** Lines 31-51. *)
Definition setup : M unit :=
  emit EvSetupDist;;
  emit (EvLoggerConfigure ("RESULTS/" +:+ save_name));;
  emit (EvDumpConfig (os_path_join logger_dir "config.yaml"));;
  emit (EvLog "creating model and diffusion...");;
  emit (EvCreateModel (sel_attn_depth args) (sel_attn_block args));;
  emit (EvLoadStateDict (model_path args));;
  emit EvModelToDevice;;
  (if use_fp16 args then emit EvConvertToFp16 else mret tt);;
  emit EvModelEval.

(** Lines 95-107. *)
Definition save_results (st : state) : M unit :=
  arr ← lift (np_concatenate (all_images st));
  arr ← lift (slice_upto arr (num_samples args));
  label_arr ←
    (if class_cond args
     then l ← lift (np_concatenate (all_labels st));
          l ← lift (slice_upto l (num_samples args));
          mret (Some l)
     else mret None);
  if rank =? 0 then
    let shape_str := String.concat "x" (pretty <$> shape arr) in
    let out_path :=
      os_path_join logger_dir ("samples_" +:+ shape_str +:+ ".npz") in
    emit (EvLog ("saving to " +:+ out_path));;
    if class_cond args
    then emit (EvSavez out_path (arr :: option_list label_arr))
    else emit (EvSavez out_path [arr])
  else mret tt.

Definition main (fuel : nat) : M unit :=
  setup;;
  emit (EvLog "sampling...");;
  st ← sampling_loop fuel init_state;
  save_results st;;
  emit EvBarrier;;
  emit (EvLog ("sampling completed at " +:+ now_str));;
  emit (EvLog (total_seconds_str +:+ " seconds to sample "
               +:+ pretty (num_samples args) +:+ " images.")).
End Script.

(** ** What is assumed of the external routines, where a property needs it *)

(** The sampling routine returns a tensor of the shape it was asked for. *)
Definition sampler_shape_ok (env : Env) : Prop :=
  ∀ r k c,
    shape (env_sample_loop env r k c).1 = Z.to_nat <$> call_shape c
    ∧ wf_array (env_sample_loop env r k c).1.

(** [th.randint(..., size=(batch_size,))] returns [batch_size] labels. *)
Definition randint_shape_ok (env : Env) : Prop :=
  ∀ r k,
    shape (env_th_randint env r k) = [Z.to_nat (batch_size (env_args env))]
    ∧ wf_array (env_th_randint env r k).

(** The sampling routine leaves the guidance dictionary as it received it. *)
Definition sampler_keeps_guidance (env : Env) : Prop :=
  ∀ r k c, (env_sample_loop env r k c).2 = call_guidance_kwargs c.

(** ** Counting events *)

Definition is_all_gather (e : event) : bool :=
  match e with EvAllGather _ _ => true | _ => false end.
Definition is_barrier (e : event) : bool :=
  match e with EvBarrier => true | _ => false end.
Definition is_sample (e : event) : bool :=
  match e with EvSample _ => true | _ => false end.
Definition is_savez (e : event) : bool :=
  match e with EvSavez _ _ => true | _ => false end.

Definition count (p : event → bool) (tr : list event) : nat :=
  length (filter (λ e, p e = true) tr).

(** Ceiling of [a / b] for a positive [b], as [-(-a // b)]. *)
Definition ceil_div (a b : Z) : Z := - ((- a) / b).

(** ** A concrete environment, for examples *)

Module Example.
Definition args (ns bs : Z) (cc ddim : bool) : Args :=
  {| num_samples := ns; batch_size := bs; image_size := 2;
     class_cond := cc; use_ddim := ddim; clip_denoised := true;
     use_fp16 := false; model_path := "model.pt";
     sel_attn_depth := PInt 2; sel_attn_block := PStr "output";
     guide_start := PInt 250; guide_scale := PFloat (Fin (11 # 10));
     blur_sigma := PFloat (Fin 3) |}.

(** A sampler that returns the requested shape, filled with values from
    [-3/2] upwards in steps of [1/2], and keeps the dictionary. *)
Definition sampler (r k : nat) (c : sample_call)
  : ndarray fp * gmap string pyval :=
  let s := Z.to_nat <$> call_shape c in
  (NdArray s ((λ i, Fin ((Z.of_nat (i + r + k) - 3) # 2)) <$> seq 0 (numel s)),
   call_guidance_kwargs c).

(** A sampler that overwrites an entry of the dictionary it is handed. *)
Definition meddling_sampler (r k : nat) (c : sample_call)
  : ndarray fp * gmap string pyval :=
  ((sampler r k c).1, <["guide_scale" := PNone]> (call_guidance_kwargs c)).

Definition labels (bs : Z) (r k : nat) : ndarray Z :=
  NdArray [Z.to_nat bs] (replicate (Z.to_nat bs) (Z.of_nat (r + k))).

Definition env (ns bs : Z) (cc ddim : bool) (ws rk : Z) : Env :=
  {| env_args := args ns bs cc ddim;
     env_world_size := ws;
     env_rank := rk;
     env_NUM_CLASSES := 1000;
     env_save_name := "2024_01_01-120000_AM";
     env_logger_dir := "RESULTS/2024_01_01-120000_AM";
     env_now_str := "2024-01-01 00:00:09";
     env_total_seconds_str := "9.0";
     env_round := Fin;
     env_cast_nonfinite := 0;
     env_sample_loop := sampler;
     env_th_randint := labels bs |}.

Definition meddling_env (ns bs : Z) (ws rk : Z) : Env :=
  {| env_args := args ns bs false false;
     env_world_size := ws;
     env_rank := rk;
     env_NUM_CLASSES := 1000;
     env_save_name := "2024_01_01-120000_AM";
     env_logger_dir := "RESULTS/2024_01_01-120000_AM";
     env_now_str := "2024-01-01 00:00:09";
     env_total_seconds_str := "9.0";
     env_round := Fin;
     env_cast_nonfinite := 0;
     env_sample_loop := meddling_sampler;
     env_th_randint := labels bs |}.
End Example.

(** ** The expected course of a run

    What the script is shown below to emit and to hold in its variables when
    the external routines behave: these definitions only name the terms the
    theorems speak about. *)

Section Expected.
Variable env : Env.

Local Abbreviation args := (env_args env).
Local Abbreviation W := (length (workers env)).

(** The events of an iteration that completes, given the worker's sample. *)
Definition body_events (st : state) (sample : ndarray Z) (images : nat)
  : list event :=
  (if class_cond args
   then [EvRandint 0 (env_NUM_CLASSES env) (batch_size args)] else [])
  ++ [EvSample (make_call env (me env) (iter st) (guidance_kwargs st));
      EvAllGather W sample]
  ++ (if class_cond args
      then [EvAllGather W (env_th_randint env (me env) (iter st))] else [])
  ++ [EvLog ("created "
             +:+ pretty (Z.of_nat images * batch_size args)
             +:+ " samples")].

(** The events after the results are saved (lines 109-114). *)
Definition closing_events : list event :=
  [EvBarrier;
   EvLog ("sampling completed at " +:+ env_now_str env);
   EvLog (env_total_seconds_str env +:+ " seconds to sample "
          +:+ pretty (num_samples args) +:+ " images.")].

Definition batch_rows : nat := Z.to_nat (batch_size args).
Definition image_side : nat := Z.to_nat (image_size args).

(** The raw sample of worker [r] in iteration [k], and the image tensor
    made of it. *)
Definition raw_sample (r k : nat) : ndarray fp :=
  (env_sample_loop env r k (make_call env r k (worker_gk env r k))).1.

Definition image_of (r k : nat) : ndarray Z :=
  NdArray [batch_rows; image_side; image_side; 3%nat]
    (permute_data batch_rows 3 image_side image_side
       (pixel (env_round env) (env_cast_nonfinite env)
          <$> data (raw_sample r k))).

Definition gathered_images (k : nat) : list (ndarray Z) :=
  (λ r, image_of r k) <$> workers env.

Definition gathered_labels (k : nat) : list (ndarray Z) :=
  (λ r, env_th_randint env r k) <$> workers env.

(** The variables of [main] after [n] iterations. *)
Definition images_upto (n : nat) : list (ndarray Z) :=
  k ← seq 0 n; gathered_images k.

Definition labels_upto (n : nat) : list (ndarray Z) :=
  if class_cond args then k ← seq 0 n; gathered_labels k else [].

Definition state_after (n : nat) : state :=
  State (images_upto n) (labels_upto n) (worker_gk env (me env) n) n.

Definition iteration_events (k : nat) : list event :=
  body_events (state_after k) (image_of (me env) k)
    (length (images_upto (S k))).

(** Collective gathers of one iteration: the samples, and the labels. *)
Definition gathers_per_iteration : nat := if class_cond args then 2 else 1.

(** A pixel is the image of a raw sample value under line 80. *)
Definition is_pixel (v : Z) : Prop :=
  ∃ x, v = pixel (env_round env) (env_cast_nonfinite env) x.

Definition pixel_array (a : ndarray Z) : Prop := Forall is_pixel (data a).

(** The number of iterations of the sampling loop. *)
Definition iterations : nat :=
  Z.to_nat (ceil_div (num_samples args)
              (batch_size args * env_world_size env)).

(** Lines 101-102. *)
Definition out_path_of (arr : ndarray Z) : string :=
  os_path_join (env_logger_dir env)
    ("samples_" +:+ String.concat "x" (pretty <$> shape arr) +:+ ".npz").

(** The arrays that are saved: the first [num_samples] rows of all images,
    and of all labels. *)
Definition final_images : ndarray Z :=
  NdArray [Z.to_nat (num_samples args); image_side; image_side; 3%nat]
    (take (Z.to_nat (num_samples args) * (image_side * image_side * 3))
       (mjoin (data <$> images_upto iterations))).

Definition final_labels : ndarray Z :=
  NdArray [Z.to_nat (num_samples args)]
    (take (Z.to_nat (num_samples args))
       (mjoin (data <$> labels_upto iterations))).

Definition saved_arrays : list (ndarray Z) :=
  final_images :: (if class_cond args then [final_labels] else []).

Definition save_events : list event :=
  if env_rank env =? 0
  then [EvLog ("saving to " +:+ out_path_of final_images);
        EvSavez (out_path_of final_images) saved_arrays]
  else [].

(** The trace of a run that completes. *)
Definition expected_trace : list event :=
  (setup env).2 ++ [EvLog "sampling..."]
  ++ (k ← seq 0 iterations; iteration_events k)
  ++ save_events ++ closing_events.
End Expected.

(** ** The command-line defaults (lines 117-135)

    A Python dict is a list of entries in insertion order, with a key at
    most once. *)

Abbreviation pydict V := (list (string * V)).

(** [k in d], [d[k]] and [d[k] = v]: an assignment to a key that is present
    replaces its value in place, one to a new key appends an entry. *)
Definition dict_contains {V} (d : pydict V) (k : string) : bool :=
  bool_decide (k ∈ d.*1).

Fixpoint dict_get {V} (d : pydict V) (k : string) : option V :=
  match d with
  | [] => None
  | (k', v) :: d' => if decide (k' = k) then Some v else dict_get d' k
  end.

Fixpoint dict_setitem {V} (d : pydict V) (k : string) (v : V) : pydict V :=
  match d with
  | [] => [(k, v)]
  | (k', v') :: d' =>
      if decide (k' = k) then (k', v) :: d'
      else (k', v') :: dict_setitem d' k v
  end.

(** Lines 126-129: [for key in d: if key not in default: default[key] =
    d[key]].  The keys iterated are those of [d], so [d[key]] is there. *)
Definition update_step {V} (d : pydict V) (default : pydict V) (key : string)
  : pydict V :=
  if dict_contains default key then default
  else match dict_get d key with
       | Some v => dict_setitem default key v
       | None => default
       end.

Definition update_ {V} (default d : pydict V) : pydict V :=
  foldl (update_step d) default d.*1.

(** Lines 118-124: the defaults of the script itself. *)
Definition script_defaults : pydict pyval :=
  [("clip_denoised", PBool true);
   ("num_samples", PInt 10000);
   ("batch_size", PInt 16);
   ("use_ddim", PBool false);
   ("model_path", PStr EmptyString)].

(** Lines 131-134: the dictionary handed to [add_dict_to_argparser], given
    what the external [model_and_diffusion_defaults()] and [sag_defaults()]
    return. *)
Definition create_argparser (model_and_diffusion_defaults sag_defaults
    : pydict pyval) : pydict pyval :=
  update_ (update_ script_defaults model_and_diffusion_defaults) sag_defaults.

(** ** The name of the result directory (lines 25-28)

    [strftime("%Y_%m_%d-%I%M%S_%p")] of a UTC clock reading, with the
    [AM]/[PM] marker of the C locale. *)

Record datetime := DateTime {
  dt_year : Z;
  dt_month : Z;
  dt_day : Z;
  dt_hour : Z;
  dt_minute : Z;
  dt_second : Z
}.

(** What [datetime.now] can return. *)
Definition valid_datetime (t : datetime) : Prop :=
  1000 ≤ dt_year t ≤ 9999 ∧ 1 ≤ dt_month t ≤ 12 ∧ 1 ≤ dt_day t ≤ 31
  ∧ 0 ≤ dt_hour t < 24 ∧ 0 ≤ dt_minute t < 60 ∧ 0 ≤ dt_second t < 60.

Definition digit (d : Z) : ascii := ascii_of_nat (Z.to_nat (48 + d)).

(** [%m], [%d], [%M], [%S]: two digits; [%Y]: four. *)
Definition pad2 (n : Z) : string :=
  String (digit (n / 10)) (String (digit (n mod 10)) EmptyString).

Definition pad4 (n : Z) : string :=
  String (digit (n / 1000))
    (String (digit (n / 100 mod 10)) (pad2 (n mod 100))).

(** [%I] and [%p]: the hour on the 12-hour clock, and its half of the day. *)
Definition hour12 (h : Z) : Z := if h mod 12 =? 0 then 12 else h mod 12.

Definition am_pm (h : Z) : string := if h <? 12 then "AM" else "PM".

Definition get_datetime (now_utc : datetime) : string :=
  pad4 (dt_year now_utc) +:+ "_" +:+ pad2 (dt_month now_utc) +:+ "_"
  +:+ pad2 (dt_day now_utc) +:+ "-" +:+ pad2 (hour12 (dt_hour now_utc))
  +:+ pad2 (dt_minute now_utc) +:+ pad2 (dt_second now_utc) +:+ "_"
  +:+ am_pm (dt_hour now_utc).

(** ** Further notions for the properties of [main] *)

(** The same run seen from the worker of another rank. *)
Definition with_rank (env : Env) (rk : Z) : Env :=
  {| env_args := env_args env;
     env_world_size := env_world_size env;
     env_rank := rk;
     env_NUM_CLASSES := env_NUM_CLASSES env;
     env_save_name := env_save_name env;
     env_logger_dir := env_logger_dir env;
     env_now_str := env_now_str env;
     env_total_seconds_str := env_total_seconds_str env;
     env_round := env_round env;
     env_cast_nonfinite := env_cast_nonfinite env;
     env_sample_loop := env_sample_loop env;
     env_th_randint := env_th_randint env |}.

(** The order of floats; a NaN is not comparable. *)
Definition fp_le (x y : fp) : Prop :=
  match x, y with
  | NaN, _ | _, NaN => False
  | NegInf, _ => True
  | _, PosInf => True
  | Fin p, Fin q => (p <= q)%Q
  | _, _ => False
  end.

(** What the rounding of a float format does: it is monotone, and exact on
    the numbers [0], [2] and [255], which every float format holds. *)
Definition rounding_ok (round : Q → fp) : Prop :=
  (∀ p q, (p <= q)%Q → fp_le (round p) (round q))
  ∧ round 0%Q = Fin 0 ∧ round 2%Q = Fin 2 ∧ round 255%Q = Fin 255.

(** * Properties *)

(** ** The monad *)

Ltac munfold :=
  unfold mbind, M_bind, mret, M_ret, bind, ret, emit, lift in *; simpl in *.

Lemma bind_Ok {A B} (m : M A) (f : A → M B) a :
  m.1 = Ok a → (m ≫= f) = ((f a).1, m.2 ++ (f a).2).
Proof. intros H. munfold. by rewrite H. Qed.

Lemma bind_events {A B} (m : M A) (f : A → M B) :
  (m ≫= f).2 = m.2 ++ match m.1 with Ok a => (f a).2 | _ => [] end.
Proof. munfold. destruct m.1; simpl; by rewrite ?app_nil_r. Qed.

Lemma bind_inv_Ok {A B} (m : M A) (f : A → M B) b :
  (m ≫= f).1 = Ok b → ∃ a, m.1 = Ok a ∧ (f a).1 = Ok b.
Proof. munfold. destruct m.1; simpl; intros; simplify_eq; eauto. Qed.

(** ** Arrays *)

Lemma length_bind_const {A B} (f : A → list B) (l : list A) (m : nat) :
  Forall (λ x, length (f x) = m) l → length (l ≫= f) = (length l * m)%nat.
Proof.
  induction 1 as [|x l Hx _ IH]; csimpl; [done|].
  rewrite length_app, Hx, IH. lia.
Qed.

Lemma flat_index_bound (n c h w i k y x : nat) :
  (i < n → k < c → y < h → x < w →
   ((i * c + k) * h + y) * w + x < n * c * h * w)%nat.
Proof.
  intros Hi Hk Hy Hx.
  assert (i * c + k + 1 ≤ n * c)%nat as H1 by nia.
  assert ((i * c + k) * h + y + 1 ≤ n * c * h)%nat as H2 by nia.
  nia.
Qed.

Lemma length_permute_data {A} (n c h w : nat) (d : list A) :
  length d = (n * c * h * w)%nat →
  length (permute_data n c h w d) = (n * h * w * c)%nat.
Proof.
  intros Hd. unfold permute_data.
  rewrite (length_bind_const _ _ (h * w * c)%nat), length_seq; [lia|].
  apply Forall_forall. intros i Hi%elem_of_seq.
  rewrite (length_bind_const _ _ (w * c)%nat), length_seq; [lia|].
  apply Forall_forall. intros y Hy%elem_of_seq.
  rewrite (length_bind_const _ _ c), length_seq; [lia|].
  apply Forall_forall. intros x Hx%elem_of_seq.
  rewrite (length_bind_const _ _ 1%nat), length_seq; [lia|].
  apply Forall_forall. intros k Hk%elem_of_seq.
  destruct (lookup_lt_is_Some_2 d (((i * c + k) * h + y) * w + x)%nat)
    as [v Hv]; [|by rewrite Hv].
  rewrite Hd. apply flat_index_bound; lia.
Qed.

Lemma elem_of_permute_data {A} (n c h w : nat) (d : list A) v :
  v ∈ permute_data n c h w d → v ∈ d.
Proof.
  unfold permute_data.
  intros (i & (y & (x & (k & Hv & _)%list_elem_of_bind & _)%list_elem_of_bind
            & _)%list_elem_of_bind & _)%list_elem_of_bind.
  destruct (d !! _) as [u|] eqn:Hu; simpl in Hv; [|by inv Hv].
  apply list_elem_of_singleton in Hv as ->. by eapply list_elem_of_lookup_2.
Qed.

Lemma permute_0231_shape {A} (t : ndarray A) n c h w :
  shape t = [n; c; h; w] →
  permute_0231 t = Ok (NdArray [n; h; w; c] (permute_data n c h w (data t))).
Proof. intros H. unfold permute_0231. by rewrite H. Qed.

Lemma permute_0231_inv {A} (t u : ndarray A) :
  permute_0231 t = Ok u →
  ∃ n c h w, shape t = [n; c; h; w] ∧
    u = NdArray [n; h; w; c] (permute_data n c h w (data t)).
Proof.
  unfold permute_0231. intros H.
  destruct (shape t) as [|n [|c [|h [|w [|]]]]]; simplify_eq. eauto 10.
Qed.

Lemma np_concatenate_same {A} (a : ndarray A) (l : list (ndarray A)) n0 tl :
  Forall (λ b, shape b = n0 :: tl) (a :: l) →
  np_concatenate (a :: l)
  = Ok (NdArray ((length (a :: l) * n0)%nat :: tl) (mjoin (data <$> a :: l))).
Proof.
  intros Hall. unfold np_concatenate.
  pose proof (Forall_inv Hall) as Ha. simpl in Ha.
  unfold trailing_dims at 1. rewrite Ha.
  assert (forallb (λ b, bool_decide (trailing_dims b = Some tl)) (a :: l)
          = true) as ->.
  { apply forallb_forall. intros b Hb%list_elem_of_In.
    apply bool_decide_eq_true. unfold trailing_dims.
    by rewrite (proj1 (Forall_forall _ _) Hall b Hb). }
  f_equal. f_equal. f_equal.
  apply sum_list_fmap_same. eapply Forall_impl; [exact Hall|].
  intros b Hb. unfold leading_dim. by rewrite Hb.
Qed.

Lemma np_concatenate_inv {A} (l : list (ndarray A)) (r : ndarray A) :
  np_concatenate l = Ok r → l ≠ [] ∧ data r = mjoin (data <$> l).
Proof.
  unfold np_concatenate. destruct l as [|a l]; [done|].
  destruct (trailing_dims a); [|done].
  destruct (forallb _ _); intros; by simplify_eq.
Qed.

Lemma slice_upto_inv {A} (a r : ndarray A) k :
  slice_upto a k = Ok r → ∃ n, data r = take n (data a).
Proof.
  unfold slice_upto. destruct (shape a); intros; simplify_eq. eauto.
Qed.

Lemma slice_rows_exact (n0 : nat) (k : Z) :
  0 ≤ k ≤ Z.of_nat n0 → slice_rows n0 k = Z.to_nat k.
Proof.
  intros Hk. unfold slice_rows.
  destruct (Z.leb_spec 0 k); lia.
Qed.

(** Concatenating arrays of one shape and keeping the first [k] rows. *)
Lemma concatenate_then_slice {A} (l : list (ndarray A)) n0 tl (k : Z) :
  l ≠ [] → Forall (λ b, shape b = n0 :: tl) l →
  0 ≤ k ≤ Z.of_nat (length l * n0) →
  ∃ a0, np_concatenate l = Ok a0
    ∧ slice_upto a0 k
      = Ok (NdArray (Z.to_nat k :: tl)
              (take (Z.to_nat k * numel tl) (mjoin (data <$> l)))).
Proof.
  intros Hne Hall Hk. destruct l as [|a l]; [done|].
  eexists. split; [by apply np_concatenate_same|].
  unfold slice_upto. simpl. by rewrite slice_rows_exact.
Qed.

Lemma length_join_same {A} (ls : list (list A)) (m : nat) :
  Forall (λ l, length l = m) ls → length (mjoin ls) = (length ls * m)%nat.
Proof.
  intros H. rewrite length_join. by apply sum_list_fmap_same.
Qed.

(** ** Pixels *)

Section PixelRange.
Variable round : Q → fp.
Variable cast_nonfinite : Z.

Lemma clamp_finite_range (lo hi : Q) (x : fp) (q : Q) :
  (lo <= hi)%Q → clamp lo hi x = Fin q → (lo <= q <= hi)%Q.
Proof.
  intros Hlh. unfold clamp. destruct x as [p| | |]; [| | |done].
  - destruct (Qle_bool p lo) eqn:H1; [intros [= <-]; split;
      [apply Qle_refl|done]|].
    destruct (Qle_bool hi p) eqn:H2; [intros [= <-]; split;
      [done|apply Qle_refl]|].
    intros [= <-]. split; apply Qlt_le_weak, Qnot_le_lt; intros H%Qle_bool_iff;
      congruence.
  - intros [= <-]. split; [done|apply Qle_refl].
  - intros [= <-]. split; [apply Qle_refl|done].
Qed.

Lemma to_uint8_in_byte_range (q : Q) :
  (0 <= q <= 255)%Q →
  to_uint8 cast_nonfinite (Fin q) = Qnum q / Zpos (Qden q)
  ∧ 0 ≤ Qnum q / Zpos (Qden q) ≤ 255.
Proof.
  destruct q as [n d]. unfold Qle. simpl. intros [H0 H255].
  assert (0 ≤ n / Z.pos d ≤ 255) as Hr.
  { split; [apply Z.div_pos; lia|].
    apply Z.div_le_upper_bound; lia. }
  split; [|done].
  rewrite Z.quot_div_nonneg by lia.
  apply Z.mod_small. lia.
Qed.

Lemma pixel_range (x : fp) : 0 ≤ pixel round cast_nonfinite x ≤ 255.
Proof.
  unfold pixel, to_uint8.
  destruct (clamp _ _ _);
    match goal with |- _ ≤ ?a mod 256 ≤ _ =>
      pose proof (Z.mod_pos_bound a 256); lia end.
Qed.
End PixelRange.

(** ** Arithmetic of the loop bound *)

Lemma ceil_div_spec (a b : Z) :
  0 < b → b * (ceil_div a b - 1) < a ≤ b * ceil_div a b.
Proof.
  intros Hb. unfold ceil_div.
  pose proof (Z.mul_div_le (- a) b Hb).
  pose proof (Z.mul_succ_div_gt (- a) b Hb).
  lia.
Qed.

(** ** The loop body *)

Section ScriptProperties.
Variable env : Env.

Local Abbreviation args := (env_args env).
Local Abbreviation W := (length (workers env)).

Lemma all_gather_inv {A} (l : list (outcome A)) (g : list A) :
  all_gather l = Ok g → l = Ok <$> g.
Proof.
  revert g. induction l as [|[a| |] l IH]; simpl; intros g Hg; simplify_eq;
    [done|].
  destruct (all_gather l) as [g'| |]; simplify_eq.
  simpl. f_equal. by apply IH.
Qed.

Lemma all_gather_Ok {A} (g : list A) : all_gather (Ok <$> g) = Ok g.
Proof. induction g as [|a g IH]; csimpl; [done|]. by rewrite IH. Qed.

(** An iteration that completes: what it gathered, what it emitted and the
    state it leaves. *)
Lemma loop_body_inv (st st' : state) :
  (loop_body env st).1 = Ok st' →
  let c := make_call env (me env) (iter st) (guidance_kwargs st) in
  ∃ sample gathered,
    postprocess env (env_sample_loop env (me env) (iter st) c).1 = Ok sample
    ∧ (λ r, contribution env r (iter st)) <$> workers env = Ok <$> gathered
    ∧ st' = State (all_images st ++ gathered)
              (if class_cond args
               then all_labels st
                    ++ ((λ r, env_th_randint env r (iter st)) <$> workers env)
               else all_labels st)
              (env_sample_loop env (me env) (iter st) c).2
              (S (iter st))
    ∧ (loop_body env st).2
      = body_events env st sample (length (all_images st ++ gathered)).
Proof.
  intros H. cbv zeta. unfold loop_body, body_events in *.
  set (c := make_call env (me env) (iter st) (guidance_kwargs st)) in *.
  destruct (env_sample_loop env (me env) (iter st) c) as [raw gk'] eqn:Hs.
  destruct (postprocess env raw) as [sample| |] eqn:Hp;
    [|by destruct (class_cond args); munfold..].
  destruct (all_gather ((λ r, contribution env r (iter st)) <$> workers env))
    as [gathered| |] eqn:Hg;
    [|by destruct (class_cond args); munfold..].
  exists sample, gathered. split; [done|].
  split; [by apply all_gather_inv|].
  destruct (class_cond args); munfold; by simplify_eq.
Qed.

(** Every iteration, whether it completes or not, calls the sampling
    routine exactly once. *)
Lemma loop_body_samples (st : state) :
  filter (λ e, is_sample e = true) (loop_body env st).2
  = [EvSample (make_call env (me env) (iter st) (guidance_kwargs st))].
Proof.
  unfold loop_body.
  set (c := make_call env (me env) (iter st) (guidance_kwargs st)).
  destruct (env_sample_loop env (me env) (iter st) c) as [raw gk'].
  destruct (postprocess env raw) as [sample| |];
    [|by destruct (class_cond args); munfold..].
  destruct (all_gather _) as [gathered| |];
    by destruct (class_cond args); munfold.
Qed.

(** An iteration emits only [EvRandint], [EvSample], [EvAllGather] and
    [EvLog] events. *)
Lemma loop_body_quiet (p : event → bool) (st : state) :
  (∀ a b c, p (EvRandint a b c) = false) → (∀ c, p (EvSample c) = false) →
  (∀ n t, p (EvAllGather n t) = false) → (∀ m, p (EvLog m) = false) →
  filter (λ e, p e = true) (loop_body env st).2 = [].
Proof.
  intros Hr Hs Hg Hl. unfold loop_body.
  destruct (env_sample_loop env _ _ _) as [raw gk'].
  destruct (postprocess env raw) as [sample| |];
    [|destruct (class_cond args); munfold;
      repeat (rewrite filter_cons_False by (simpl; congruence)); done..].
  destruct (all_gather _) as [gathered| |];
    destruct (class_cond args); munfold;
    repeat (rewrite filter_cons_False by (simpl; congruence)); done.
Qed.

Lemma count_app (p : event → bool) (l1 l2 : list event) :
  count p (l1 ++ l2) = (count p l1 + count p l2)%nat.
Proof. unfold count. by rewrite filter_app, length_app. Qed.

(** Events of the loop, whatever its outcome. *)
Lemma sampling_loop_quiet (p : event → bool) (fuel : nat) (st : state) :
  (∀ a b c, p (EvRandint a b c) = false) → (∀ c, p (EvSample c) = false) →
  (∀ n t, p (EvAllGather n t) = false) → (∀ m, p (EvLog m) = false) →
  filter (λ e, p e = true) (sampling_loop env fuel st).2 = [].
Proof.
  intros Hr Hs Hg Hl. revert st.
  induction fuel as [|fuel IH]; intros st; simpl;
    destruct (loop_cond env st); try done.
  rewrite bind_events, filter_app, loop_body_quiet by done.
  destruct (loop_body env st).1; [apply IH|done..].
Qed.

(** Every sampling call of the loop is the call of some iteration. *)
Lemma sampling_loop_samples (P : sample_call → Prop) (I : state → Prop) :
  (∀ st, I st → P (make_call env (me env) (iter st) (guidance_kwargs st))) →
  (∀ st st', I st → (loop_body env st).1 = Ok st' → I st') →
  ∀ fuel st c, I st →
    EvSample c ∈ (sampling_loop env fuel st).2 → P c.
Proof.
  intros HP HI. induction fuel as [|fuel IH]; intros st c Hst; simpl;
    destruct (loop_cond env st); try by intros ?%elem_of_nil.
  rewrite bind_events. intros [Hc|Hc]%elem_of_app.
  - assert (EvSample c ∈ filter (λ e, is_sample e = true)
                           (loop_body env st).2) as Hf
      by (by apply list_elem_of_filter).
    rewrite loop_body_samples in Hf.
    apply list_elem_of_singleton in Hf as [= ->]. by apply HP.
  - destruct (loop_body env st).1 as [st'| |] eqn:Hb;
      [|by apply elem_of_nil in Hc..].
    eapply IH; [|done]. by eapply HI.
Qed.

(** The counts of a loop that completes: one sampling call per iteration,
    and one gather, or two with class labels. *)
Lemma loop_body_counts (st st' : state) :
  (loop_body env st).1 = Ok st' →
  iter st' = S (iter st)
  ∧ count is_all_gather (loop_body env st).2 = gathers_per_iteration env.
Proof.
  intros H. destruct (loop_body_inv st st' H)
    as (sample & gathered & _ & _ & -> & ->).
  split; [done|]. unfold body_events, gathers_per_iteration.
  by destruct (class_cond args).
Qed.

Lemma sampling_loop_counts (fuel : nat) (st st' : state) :
  (sampling_loop env fuel st).1 = Ok st' →
  (iter st ≤ iter st')%nat
  ∧ count is_sample (sampling_loop env fuel st).2
    = (iter st' - iter st)%nat
  ∧ count is_all_gather (sampling_loop env fuel st).2
    = ((iter st' - iter st) * gathers_per_iteration env)%nat.
Proof.
  revert st. induction fuel as [|fuel IH]; intros st; simpl;
    destruct (loop_cond env st); try done;
    try (intros [= ->]; rewrite Nat.sub_diag; by split_and!).
  intros (st1 & Hb & Hl)%bind_inv_Ok.
  rewrite (bind_Ok _ _ st1) by done. simpl.
  destruct (loop_body_counts st st1 Hb) as [Hi Hg].
  destruct (IH st1 Hl) as (Hle & Hs & Ha).
  rewrite !count_app, Hs, Ha, Hg.
  unfold count at 1. rewrite loop_body_samples. simpl.
  replace (iter st' - iter st)%nat with (S (iter st' - iter st1)) by lia.
  split_and!; lia.
Qed.

(** When the loop exits, its condition is false. *)
Lemma sampling_loop_exit (fuel : nat) (st st' : state) :
  (sampling_loop env fuel st).1 = Ok st' → loop_cond env st' = false.
Proof.
  revert st. induction fuel as [|fuel IH]; intros st; simpl;
    destruct (loop_cond env st) eqn:Hc; try done;
    try (by intros [= <-]).
  intros (st1 & _ & Hl)%bind_inv_Ok. by eapply IH.
Qed.

(** What an iteration preserves holds when the loop exits. *)
Lemma sampling_loop_invariant (I : state → Prop) (fuel : nat)
    (st st' : state) :
  (∀ s s', I s → (loop_body env s).1 = Ok s' → I s') →
  I st → (sampling_loop env fuel st).1 = Ok st' → I st'.
Proof.
  intros Hstep. revert st. induction fuel as [|fuel IH]; intros st Hst; simpl;
    destruct (loop_cond env st); try done;
    try (by intros [= <-]).
  intros (st1 & Hb & Hl)%bind_inv_Ok. eauto.
Qed.

(** The dictionary a worker holds is the one its peers take it to hold, so
    the tensor it sends to a gather is its entry of the result. *)
Lemma own_guidance_kwargs (fuel : nat) (st' : state) :
  (sampling_loop env fuel (init_state env)).1 = Ok st' →
  guidance_kwargs st' = worker_gk env (me env) (iter st').
Proof.
  apply (sampling_loop_invariant
           (λ s, guidance_kwargs s = worker_gk env (me env) (iter s)));
    [|done].
  intros s s' Hs (sample & gathered & _ & _ & -> & _)%loop_body_inv.
  simpl. by rewrite Hs.
Qed.

(** ** Pixels of the gathered images *)

Lemma contribution_pixels (r k : nat) (a : ndarray Z) :
  contribution env r k = Ok a → pixel_array env a.
Proof.
  unfold contribution, postprocess.
  intros (n & c & h & w & _ & ->)%permute_0231_inv.
  unfold pixel_array. simpl. apply Forall_forall.
  intros v Hv%elem_of_permute_data.
  apply list_elem_of_fmap in Hv as (x & -> & _). by exists x.
Qed.

Lemma loop_body_pixels (st st' : state) :
  (loop_body env st).1 = Ok st' →
  ∃ new, all_images st' = all_images st ++ new
    ∧ Forall (pixel_array env) new.
Proof.
  intros (sample & gathered & _ & Hg & -> & _)%loop_body_inv.
  exists gathered. split; [done|].
  apply Forall_forall. intros a Ha.
  apply list_elem_of_lookup in Ha as [i Hi].
  assert ((Ok <$> gathered) !! i = Some (Ok a)) as Hi'
    by (by rewrite list_lookup_fmap, Hi).
  rewrite <- Hg, list_lookup_fmap in Hi'.
  destruct (workers env !! i) as [r|]; simplify_eq/=.
  by eapply contribution_pixels.
Qed.

Lemma sampling_loop_pixels (fuel : nat) (st st' : state) :
  (sampling_loop env fuel st).1 = Ok st' →
  Forall (pixel_array env) (all_images st) →
  Forall (pixel_array env) (all_images st').
Proof.
  revert st. induction fuel as [|fuel IH]; intros st; simpl;
    destruct (loop_cond env st); try done;
    try (by intros [= <-]).
  intros (st1 & Hb & Hl)%bind_inv_Ok Hst.
  apply (IH st1 Hl).
  destruct (loop_body_pixels st st1 Hb) as (new & -> & Hnew).
  by apply Forall_app.
Qed.

(** ** The run as a whole *)

Lemma setup_Ok : (setup env).1 = Ok tt.
Proof. unfold setup. by destruct (use_fp16 args); munfold. Qed.

Lemma setup_quiet (p : event → bool) :
  p EvSetupDist = false → (∀ d, p (EvLoggerConfigure d) = false) →
  (∀ d, p (EvDumpConfig d) = false) → (∀ m, p (EvLog m) = false) →
  (∀ a b, p (EvCreateModel a b) = false) →
  (∀ d, p (EvLoadStateDict d) = false) → p EvModelToDevice = false →
  p EvConvertToFp16 = false → p EvModelEval = false →
  filter (λ e, p e = true) (setup env).2 = [].
Proof.
  intros. unfold setup.
  destruct (use_fp16 args); munfold;
    repeat (rewrite filter_cons_False by (simpl; congruence)); done.
Qed.

Lemma main_outcome (fuel : nat) :
  (main env fuel).1
  = match (sampling_loop env fuel (init_state env)).1 with
    | Ok st => (save_results env st).1
    | Raise e => Raise e
    | Pending => Pending
    end.
Proof.
  unfold main. rewrite (bind_Ok _ _ tt) by apply setup_Ok. simpl.
  munfold. destruct (sampling_loop env fuel (init_state env)).1; [|done..].
  simpl. by destruct (save_results env a).1 as [[]| |].
Qed.

Lemma main_events (fuel : nat) :
  (main env fuel).2
  = (setup env).2 ++ [EvLog "sampling..."]
    ++ (sampling_loop env fuel (init_state env)).2
    ++ match (sampling_loop env fuel (init_state env)).1 with
       | Ok st =>
           (save_results env st).2
           ++ match (save_results env st).1 with
              | Ok _ => closing_events env
              | _ => []
              end
       | _ => []
       end.
Proof.
  unfold main. rewrite (bind_Ok _ _ tt) by apply setup_Ok. simpl.
  f_equal. munfold.
  destruct (sampling_loop env fuel (init_state env)).1;
    [|by rewrite app_nil_r..].
  simpl. destruct (save_results env a).1; simpl; by rewrite ?app_nil_r.
Qed.
(** ** Saving *)

(** A save step that completes: what was concatenated and truncated, and
    what was written, by the worker of rank 0 only. *)
Lemma save_results_inv (st : state) (u : unit) :
  (save_results env st).1 = Ok u →
  ∃ arr0 arr labels,
    np_concatenate (all_images st) = Ok arr0
    ∧ slice_upto arr0 (num_samples args) = Ok arr
    ∧ (if class_cond args
       then ∃ l0 l, np_concatenate (all_labels st) = Ok l0
              ∧ slice_upto l0 (num_samples args) = Ok l ∧ labels = [l]
       else labels = [])
    ∧ (save_results env st).2
      = if env_rank env =? 0
        then [EvLog ("saving to " +:+ out_path_of env arr);
              EvSavez (out_path_of env arr) (arr :: labels)]
        else [].
Proof.
  unfold save_results, out_path_of.
  destruct (np_concatenate (all_images st)) as [arr0| |]; [|by munfold..].
  destruct (slice_upto arr0 (num_samples args)) as [arr| |] eqn:Harr;
    [|munfold; by rewrite Harr..].
  intros H. exists arr0, arr.
  destruct (class_cond args).
  - destruct (np_concatenate (all_labels st)) as [l0| |];
      [|munfold; by rewrite Harr in H..].
    destruct (slice_upto l0 (num_samples args)) as [l| |] eqn:Hl;
      [|munfold; rewrite Harr in H; simpl in H; by rewrite Hl in H..].
    exists [l]. split_and!; [done|done|by eauto|].
    munfold. rewrite Harr. simpl. rewrite Hl. simpl.
    by destruct (env_rank env =? 0).
  - exists []. split_and!; [done..|].
    munfold. rewrite Harr. simpl. by destruct (env_rank env =? 0).
Qed.

(** A save step that does not complete has written nothing. *)
Lemma save_results_failed (st : state) :
  (∀ u, (save_results env st).1 ≠ Ok u) → (save_results env st).2 = [].
Proof.
  unfold save_results.
  destruct (np_concatenate (all_images st)) as [arr0| |]; [|by munfold..].
  destruct (slice_upto arr0 (num_samples args)) as [arr| |] eqn:Harr;
    [|munfold; by rewrite Harr..].
  intros H.
  destruct (class_cond args).
  - destruct (np_concatenate (all_labels st)) as [l0| |];
      [|munfold; by rewrite Harr..].
    destruct (slice_upto l0 (num_samples args)) as [l| |] eqn:Hl;
      [|munfold; rewrite Harr; simpl; by rewrite Hl..].
    exfalso. apply (H tt). munfold. rewrite Harr. simpl. rewrite Hl. simpl.
    by destruct (env_rank env =? 0).
  - exfalso. apply (H tt). munfold. rewrite Harr. simpl.
    by destruct (env_rank env =? 0).
Qed.
Lemma save_results_pixels (st : state) path arr rest :
  Forall (pixel_array env) (all_images st) →
  EvSavez path (arr :: rest) ∈ (save_results env st).2 →
  pixel_array env arr.
Proof.
  intros Hst Hin.
  destruct (save_results env st).1 as [u| |] eqn:Hs;
    [|rewrite save_results_failed in Hin by (intros u; congruence);
      by apply elem_of_nil in Hin..].
  destruct (save_results_inv st u Hs)
    as (arr0 & arr' & labels & [_ Hd]%np_concatenate_inv
        & [n Hn]%slice_upto_inv & _ & Hev).
  rewrite Hev in Hin. destruct (env_rank env =? 0);
    [|by apply elem_of_nil in Hin].
  apply elem_of_cons in Hin as [|Hin]; [done|].
  apply list_elem_of_singleton in Hin as [= _ <- _].
  unfold pixel_array. rewrite Hn, Hd.
  apply Forall_take, Forall_forall.
  intros v (d & Hv & (a & -> & Ha)%list_elem_of_fmap)%list_elem_of_join.
  by apply (proj1 (Forall_forall _ _)
              (proj1 (Forall_forall _ _) Hst a Ha)).
Qed.

(** Where the sampling calls and the writes of a run come from. *)
Lemma quiet_not_elem (p : event → bool) (l : list event) (e : event) :
  filter (λ e, p e = true) l = [] → p e = true → e ∉ l.
Proof.
  intros Hq He Hin.
  assert (e ∈ filter (λ e, p e = true) l) as Hf
    by (by apply list_elem_of_filter).
  rewrite Hq in Hf. by apply elem_of_nil in Hf.
Qed.

Lemma save_results_events (st : state) :
  (save_results env st).2 = []
  ∨ ∃ m path arrays, (save_results env st).2 = [EvLog m; EvSavez path arrays].
Proof.
  destruct (save_results env st).1 as [u| |] eqn:Hs;
    [|left; apply save_results_failed; intros u; congruence..].
  destruct (save_results_inv st u Hs) as (? & ? & ? & _ & _ & _ & ->).
  destruct (env_rank env =? 0); eauto.
Qed.

Lemma main_samples (fuel : nat) (c : sample_call) :
  EvSample c ∈ (main env fuel).2 →
  EvSample c ∈ (sampling_loop env fuel (init_state env)).2.
Proof.
  rewrite main_events. intros [H|[H|[H|H]%elem_of_app]%elem_of_app]%elem_of_app;
    [| |done|].
  - by apply (quiet_not_elem is_sample) in H; [|apply setup_quiet|].
  - by apply list_elem_of_singleton in H.
  - destruct (sampling_loop env fuel (init_state env)).1 as [st| |];
      [|by apply elem_of_nil in H..].
    apply elem_of_app in H as [H|H].
    + destruct (save_results_events st) as [Hs|(? & ? & ? & Hs)];
        rewrite Hs in H; [by apply elem_of_nil in H|].
      by repeat (apply elem_of_cons in H as [H|H]; [done|]);
        apply elem_of_nil in H.
    + destruct (save_results env st).1; [|by apply elem_of_nil in H..].
      unfold closing_events in H.
      by repeat (apply elem_of_cons in H as [H|H]; [done|]);
        apply elem_of_nil in H.
Qed.

Lemma main_savez (fuel : nat) path arrays :
  EvSavez path arrays ∈ (main env fuel).2 →
  ∃ st, (sampling_loop env fuel (init_state env)).1 = Ok st
    ∧ EvSavez path arrays ∈ (save_results env st).2.
Proof.
  rewrite main_events. intros [H|[H|[H|H]%elem_of_app]%elem_of_app]%elem_of_app.
  - by apply (quiet_not_elem is_savez) in H; [|apply setup_quiet|].
  - by apply list_elem_of_singleton in H.
  - by apply (quiet_not_elem is_savez) in H;
      [|apply sampling_loop_quiet|].
  - destruct (sampling_loop env fuel (init_state env)).1 as [st| |];
      [|by apply elem_of_nil in H..].
    exists st. split; [done|].
    apply elem_of_app in H as [H|H]; [done|].
    destruct (save_results env st).1; [|by apply elem_of_nil in H..].
    unfold closing_events in H.
    by repeat (apply elem_of_cons in H as [H|H]; [done|]);
      apply elem_of_nil in H.
Qed.

(** ** The loop when the external routines return the requested shapes *)

Lemma init_state_after : init_state env = state_after env 0.
Proof.
  unfold init_state, state_after, images_upto, labels_upto. simpl.
  by destruct (class_cond args).
Qed.

Lemma images_upto_S (n : nat) :
  images_upto env (S n) = images_upto env n ++ gathered_images env n.
Proof.
  unfold images_upto. rewrite seq_S, bind_app. f_equal.
  apply bind_singleton.
Qed.

Lemma labels_upto_S (n : nat) :
  labels_upto env (S n)
  = if class_cond args
    then labels_upto env n ++ gathered_labels env n else [].
Proof.
  unfold labels_upto. destruct (class_cond args); [|done].
  rewrite seq_S, bind_app. f_equal. apply bind_singleton.
Qed.

Lemma length_images_upto (n : nat) :
  length (images_upto env n) = (n * W)%nat.
Proof.
  unfold images_upto. rewrite (length_bind_const _ _ W), length_seq; [done|].
  apply Forall_forall. intros k _. unfold gathered_images.
  by rewrite length_fmap.
Qed.

Section ShapesOk.
Hypothesis Hsampler : sampler_shape_ok env.

Lemma contribution_ok (r k : nat) :
  contribution env r k = Ok (image_of env r k).
Proof.
  unfold contribution, postprocess, image_of, raw_sample.
  destruct (Hsampler r k (make_call env r k (worker_gk env r k)))
    as [Hshape _].
  by rewrite (permute_0231_shape _ (batch_rows env) 3
                (image_side env) (image_side env)).
Qed.

Lemma loop_body_after (n : nat) :
  loop_body env (state_after env n)
  = (Ok (state_after env (S n)), iteration_events env n).
Proof.
  pose proof (contribution_ok (me env) n) as Hme.
  unfold contribution in Hme.
  unfold loop_body, iteration_events, body_events. simpl.
  destruct (env_sample_loop env (me env) n
              (make_call env (me env) n (worker_gk env (me env) n)))
    as [raw gk'] eqn:Hs.
  simpl in Hme. rewrite Hme.
  assert ((λ r, contribution env r n) <$> workers env
          = Ok <$> gathered_images env n) as ->.
  { unfold gathered_images. rewrite <- list_fmap_compose.
    apply list_fmap_ext. intros _ r _. apply contribution_ok. }
  rewrite all_gather_Ok.
  unfold state_after. rewrite images_upto_S, labels_upto_S. simpl.
  rewrite Hs. simpl. unfold labels_upto, gathered_labels.
  by destruct (class_cond args); munfold.
Qed.
Hypothesis Hbatch : 1 ≤ batch_size args.
Hypothesis Hworld : 1 ≤ env_world_size env.

Lemma loop_cond_after (n : nat) :
  loop_cond env (state_after env n) = bool_decide (n < iterations env)%nat.
Proof.
  unfold loop_cond, iterations. simpl. rewrite length_images_upto.
  unfold workers. rewrite length_seq.
  pose proof (ceil_div_spec (num_samples args)
                (batch_size args * env_world_size env) ltac:(lia)) as Hc.
  set (c := ceil_div _ _) in *.
  case_bool_decide as Hn.
  - apply Z.ltb_lt. nia.
  - apply Z.ltb_ge. nia.
Qed.

(** From the state after [n] iterations the loop runs the remaining
    [m] iterations when it has the fuel, and is pending when not. *)
Lemma sampling_loop_after (m n fuel : nat) :
  (n + m)%nat = iterations env →
  (m ≤ fuel →
   sampling_loop env fuel (state_after env n)
   = (Ok (state_after env (iterations env)),
      k ← seq n m; iteration_events env k))%nat
  ∧ (fuel < m →
     (sampling_loop env fuel (state_after env n)).1 = Pending)%nat.
Proof.
  revert n fuel. induction m as [|m IH]; intros n fuel Hnm.
  - split; [|lia]. intros _.
    assert (loop_cond env (state_after env n) = false) as Hc.
    { rewrite loop_cond_after. apply bool_decide_eq_false. lia. }
    replace (iterations env) with n by lia.
    destruct fuel; simpl; by rewrite Hc.
  - assert (loop_cond env (state_after env n) = true) as Hc.
    { rewrite loop_cond_after. apply bool_decide_eq_true. lia. }
    destruct fuel as [|fuel]; simpl; rewrite Hc; [split; [lia|done]|].
    destruct (IH (S n) fuel ltac:(lia)) as [IH1 IH2].
    rewrite (bind_Ok _ _ (state_after env (S n)))
      by (by rewrite loop_body_after).
    rewrite loop_body_after. simpl.
    split; intros Hf.
    + by rewrite IH1 by lia.
    + by rewrite IH2 by lia.
Qed.
Lemma loop_exit_enough :
  num_samples args
  ≤ Z.of_nat (length (images_upto env (iterations env)) * batch_rows env).
Proof.
  rewrite length_images_upto. unfold workers, batch_rows, iterations.
  rewrite length_seq.
  pose proof (ceil_div_spec (num_samples args)
                (batch_size args * env_world_size env) ltac:(lia)) as Hc.
  set (c := ceil_div _ _) in *. nia.
Qed.

Lemma images_upto_shapes (n : nat) :
  Forall (λ a, shape a
               = [batch_rows env; image_side env; image_side env; 3%nat])
    (images_upto env n).
Proof.
  unfold images_upto. apply Forall_bind, Forall_forall. intros k _.
  simpl. unfold gathered_images. by apply Forall_fmap, Forall_true.
Qed.

Lemma images_upto_data_lengths (n : nat) :
  Forall (λ d, length d
               = (batch_rows env * (image_side env * image_side env * 3))%nat)
    (data <$> images_upto env n).
Proof.
  apply Forall_fmap. unfold images_upto.
  apply Forall_bind, Forall_forall. intros k _.
  simpl. unfold gathered_images. apply Forall_fmap, Forall_true.
  intros r. simpl.
  rewrite length_permute_data; [lia|]. rewrite length_fmap.
  destruct (Hsampler r k (make_call env r k (worker_gk env r k)))
    as [Hshape Hwf].
  unfold raw_sample. rewrite Hwf, Hshape. simpl.
  unfold batch_rows, image_side. lia.
Qed.

Hypothesis Hsamples : 1 ≤ num_samples args.

Lemma iterations_pos : (1 ≤ iterations env)%nat.
Proof.
  unfold iterations.
  pose proof (ceil_div_spec (num_samples args)
                (batch_size args * env_world_size env) ltac:(lia)) as Hc.
  set (c := ceil_div _ _) in *. nia.
Qed.

Lemma images_upto_nonempty : images_upto env (iterations env) ≠ [].
Proof.
  intros H. pose proof (length_images_upto (iterations env)) as Hl.
  rewrite H in Hl. simpl in Hl. unfold workers in Hl.
  rewrite length_seq in Hl. pose proof iterations_pos. nia.
Qed.

Lemma final_images_saved :
  ∃ a0, np_concatenate (images_upto env (iterations env)) = Ok a0
    ∧ slice_upto a0 (num_samples args) = Ok (final_images env).
Proof.
  destruct (concatenate_then_slice (images_upto env (iterations env))
              (batch_rows env) [image_side env; image_side env; 3%nat]
              (num_samples args)) as (a0 & H0 & H1).
  - apply images_upto_nonempty.
  - apply images_upto_shapes.
  - split; [lia|apply loop_exit_enough].
  - exists a0. split; [done|]. rewrite H1. unfold final_images.
    do 3 f_equal. simpl. lia.
Qed.

Lemma wf_final_images : wf_array (final_images env).
Proof.
  unfold wf_array, final_images. simpl.
  rewrite length_take_le; [lia|].
  rewrite (length_join_same _ _ (images_upto_data_lengths _)).
  rewrite length_fmap. pose proof loop_exit_enough. nia.
Qed.
Hypothesis Hrandint : class_cond args = true → randint_shape_ok env.

Lemma length_labels_upto (n : nat) :
  class_cond args = true → length (labels_upto env n) = (n * W)%nat.
Proof.
  intros Hcc. unfold labels_upto. rewrite Hcc.
  rewrite (length_bind_const _ _ W), length_seq; [done|].
  apply Forall_forall. intros k _. unfold gathered_labels.
  by rewrite length_fmap.
Qed.

Lemma labels_upto_ok (n : nat) :
  Forall (λ a, shape a = [batch_rows env]
               ∧ length (data a) = batch_rows env)
    (labels_upto env n).
Proof.
  unfold labels_upto. destruct (class_cond args) eqn:Hcc; [|by constructor].
  apply Forall_bind, Forall_forall. intros k _.
  simpl. unfold gathered_labels. apply Forall_fmap, Forall_true.
  intros r. simpl. destruct (Hrandint eq_refl r k) as [Hshape Hwf].
  unfold batch_rows. rewrite Hwf, Hshape. simpl. split; [done|lia].
Qed.

Lemma final_labels_saved :
  class_cond args = true →
  ∃ l0, np_concatenate (labels_upto env (iterations env)) = Ok l0
    ∧ slice_upto l0 (num_samples args) = Ok (final_labels env).
Proof.
  intros Hcc.
  destruct (concatenate_then_slice (labels_upto env (iterations env))
              (batch_rows env) [] (num_samples args)) as (l0 & H0 & H1).
  - intros H. pose proof (length_labels_upto (iterations env) Hcc) as Hl.
    rewrite H in Hl. simpl in Hl. unfold workers in Hl.
    rewrite length_seq in Hl. pose proof iterations_pos. nia.
  - eapply Forall_impl; [apply labels_upto_ok|]. by intros a [? _].
  - split; [lia|]. pose proof loop_exit_enough as He.
    by rewrite length_images_upto, <- (length_labels_upto _ Hcc) in He.
  - exists l0. split; [done|]. rewrite H1. unfold final_labels.
    do 3 f_equal. simpl. lia.
Qed.

Lemma wf_final_labels :
  class_cond args = true → wf_array (final_labels env).
Proof.
  intros Hcc. unfold wf_array, final_labels. simpl.
  rewrite length_take_le; [lia|].
  rewrite (length_join_same _ (batch_rows env)).
  - rewrite length_fmap, (length_labels_upto _ Hcc).
    pose proof loop_exit_enough as He.
    rewrite length_images_upto in He. lia.
  - apply Forall_fmap. eapply Forall_impl; [apply labels_upto_ok|].
    by intros a [_ ?].
Qed.

Lemma save_results_after :
  save_results env (state_after env (iterations env))
  = (Ok tt, save_events env).
Proof.
  destruct final_images_saved as (a0 & Ha0 & Harr).
  unfold save_results, save_events, saved_arrays. simpl.
  rewrite Ha0. munfold. rewrite Harr. simpl.
  pose proof final_labels_saved as Hlab.
  destruct (class_cond args) eqn:Hcc.
  - destruct (Hlab eq_refl) as (l0 & Hl0 & Hl).
    rewrite Hl0. simpl. rewrite Hl. simpl.
    by destruct (env_rank env =? 0).
  - simpl. by destruct (env_rank env =? 0).
Qed.

(** A run with enough fuel completes, with the expected trace. *)
Lemma main_completes (fuel : nat) :
  (iterations env ≤ fuel)%nat →
  main env fuel = (Ok tt, expected_trace env).
Proof.
  intros Hfuel.
  destruct (sampling_loop_after (iterations env) 0 fuel eq_refl)
    as [Hloop _].
  specialize (Hloop Hfuel). rewrite <- init_state_after in Hloop.
  apply injective_projections.
  - rewrite main_outcome, Hloop. simpl. by rewrite save_results_after.
  - rewrite main_events, Hloop. simpl. by rewrite save_results_after.
Qed.
End ShapesOk.
End ScriptProperties.

(** * The claims *)

(** C1: the sampling loop accumulates until there are enough samples.  The
    body runs again exactly when [len(all_images) * batch_size] is
    strictly below [num_samples], and whenever the loop exits,
    [len(all_images) * batch_size] is at least [num_samples]. *)
Theorem C1_accumulate_until_enough (env : Env) (fuel : nat) (st : state) :
  sampling_loop env (S fuel) st
  = (if decide (Z.of_nat (length (all_images st)) * batch_size (env_args env)
                < num_samples (env_args env))
     then loop_body env st ≫= sampling_loop env fuel
     else (Ok st, []))
  ∧ ∀ st', (sampling_loop env fuel st).1 = Ok st' →
      num_samples (env_args env)
      ≤ Z.of_nat (length (all_images st')) * batch_size (env_args env).
Proof.
  split.
  - simpl. unfold loop_cond.
    case_decide as H.
    + by rewrite (proj2 (Z.ltb_lt _ _) H).
    + by rewrite (proj2 (Z.ltb_ge _ _)) by lia.
  - intros st' Hexit%sampling_loop_exit.
    unfold loop_cond in Hexit. by apply Z.ltb_ge in Hexit.
Qed.

(** C1 at work: five samples in batches of two on two workers; the loop
    exits after two iterations with eight samples. *)
Lemma C1_accumulate_until_enough_witness :
  let env := Example.env 5 2 false false 2 0 in
  ∃ st', (sampling_loop env 3 (init_state env)).1 = Ok st'
    ∧ length (all_images st') = 4%nat
    ∧ num_samples (env_args env)
      ≤ Z.of_nat (length (all_images st')) * batch_size (env_args env).
Proof.
  intros env. eexists. split; [vm_compute; reflexivity|].
  split; [reflexivity|].
  apply (proj2 (C1_accumulate_until_enough env 3 (init_state env))).
  vm_compute; reflexivity.
Defined.

(** C5: for [num_samples >= 0], [batch_size >= 1] and a world size of at
    least one, the sampling loop terminates after exactly
    [ceil(num_samples / (batch_size * world_size))] iterations, each of
    which extends [all_images] by [world_size] entries.  The sampling routine
    is taken to return tensors of the requested shape. *)
Theorem C5_loop_terminates (env : Env) :
  0 ≤ num_samples (env_args env) →
  1 ≤ batch_size (env_args env) →
  1 ≤ env_world_size env →
  sampler_shape_ok env →
  let per_iteration := batch_size (env_args env) * env_world_size env in
  let N := Z.to_nat (ceil_div (num_samples (env_args env)) per_iteration) in
  (* [N] is the ceiling of the quotient *)
  per_iteration * (Z.of_nat N - 1) < num_samples (env_args env)
                                   ≤ per_iteration * Z.of_nat N
  (* with fuel for [N] iterations the loop exits, after [N] iterations *)
  ∧ (∀ fuel, (N ≤ fuel)%nat →
       ∃ st', (sampling_loop env fuel (init_state env)).1 = Ok st'
         ∧ iter st' = N
         ∧ count is_sample (sampling_loop env fuel (init_state env)).2 = N
         ∧ Z.of_nat (length (all_images st'))
           = Z.of_nat N * env_world_size env)
  (* and not with less *)
  ∧ (∀ fuel, (fuel < N)%nat →
       (sampling_loop env fuel (init_state env)).1 = Pending)
  (* every iteration adds [world_size] entries *)
  ∧ (∀ st st', (loop_body env st).1 = Ok st' →
       Z.of_nat (length (all_images st'))
       = Z.of_nat (length (all_images st)) + env_world_size env).
Proof.
  intros Hsamples Hbatch Hworld Hsampler per_iteration N.
  change N with (iterations env).
  split; [|split_and!].
  - pose proof (ceil_div_spec (num_samples (env_args env)) per_iteration
                  ltac:(unfold per_iteration; lia)) as Hc.
    unfold iterations. fold per_iteration.
    set (c := ceil_div _ _) in *. nia.
  - intros fuel Hfuel.
    destruct (sampling_loop_after env Hsampler Hbatch Hworld
                (iterations env) 0 fuel eq_refl) as [Hloop _].
    specialize (Hloop Hfuel). rewrite <- init_state_after in Hloop.
    exists (state_after env (iterations env)).
    assert ((sampling_loop env fuel (init_state env)).1
            = Ok (state_after env (iterations env))) as Hok
      by (by rewrite Hloop).
    split_and!; [done|done| |].
    + destruct (sampling_loop_counts env fuel _ _ Hok) as (_ & -> & _).
      simpl. lia.
    + simpl. rewrite length_images_upto. unfold workers.
      rewrite length_seq. lia.
  - intros fuel Hfuel.
    destruct (sampling_loop_after env Hsampler Hbatch Hworld
                (iterations env) 0 fuel eq_refl) as [_ Hpending].
    rewrite init_state_after. by apply Hpending.
  - intros st st' (sample & gathered & _ & Hg & -> & _)%loop_body_inv.
    simpl. rewrite length_app.
    assert (length gathered = length (workers env)) as ->.
    { by rewrite <- (length_fmap Ok gathered), <- Hg, length_fmap. }
    unfold workers. rewrite length_seq. lia.
Qed.

(** C5 at work: five samples, batches of two, two workers: two iterations. *)
Lemma C5_loop_terminates_witness :
  let env := Example.env 5 2 true false 2 0 in
  ∃ st', (sampling_loop env 2 (init_state env)).1 = Ok st'
    ∧ iter st' = 2%nat
    ∧ (sampling_loop env 1 (init_state env)).1 = Pending.
Proof.
  intros env.
  assert (sampler_shape_ok env) as Hsampler.
  { intros r k c. split; [reflexivity|].
    unfold wf_array. simpl. by rewrite length_fmap, length_seq. }
  destruct (C5_loop_terminates env ltac:(simpl; lia) ltac:(simpl; lia)
              ltac:(simpl; lia) Hsampler) as (_ & Hexit & Hpending & _).
  destruct (Hexit 2%nat ltac:(vm_compute; lia)) as (st' & Hst' & Hiter & _).
  exists st'. split; [exact Hst'|]. split; [exact Hiter|].
  apply Hpending. vm_compute; lia.
Defined.

(** C6: the script only dispatches to the external sampling routine.  Every
    sampling call of a run goes to [ddim_sample_loop] when [use_ddim] is set
    and to [p_sample_loop] when not, with the shape
    [(batch_size, 3, image_size, image_size)]; every iteration makes exactly
    one such call, and the tensor it hands to the gather is the value the
    routine returned, only rescaled, cast and permuted. *)
Theorem C6_dispatch_to_sampler (env : Env) (fuel : nat) :
  (∀ c, EvSample c ∈ (main env fuel).2 →
     call_fn c = (if use_ddim (env_args env)
                  then ddim_sample_loop else p_sample_loop)
     ∧ call_shape c = [batch_size (env_args env); 3;
                       image_size (env_args env); image_size (env_args env)])
  ∧ (∀ st, filter (λ e, is_sample e = true) (loop_body env st).2
           = [EvSample (make_call env (me env) (iter st) (guidance_kwargs st))])
  ∧ (∀ st st', (loop_body env st).1 = Ok st' →
       ∃ sample,
         postprocess env
           (env_sample_loop env (me env) (iter st)
              (make_call env (me env) (iter st) (guidance_kwargs st))).1
         = Ok sample
         ∧ EvAllGather (length (workers env)) sample ∈ (loop_body env st).2).
Proof.
  split_and!.
  - intros c Hc%main_samples.
    apply (sampling_loop_samples env
             (λ c, call_fn c = (if use_ddim (env_args env)
                                then ddim_sample_loop else p_sample_loop)
                   ∧ call_shape c
                     = [batch_size (env_args env); 3;
                        image_size (env_args env); image_size (env_args env)])
             (λ _, True) ltac:(
               intros st _; simpl; unfold chosen_sample_fn;
               by destruct (use_ddim (env_args env)))
             ltac:(done) fuel (init_state env) c I Hc).
  - apply loop_body_samples.
  - intros st st' (sample & gathered & Hp & _ & _ & Hev)%loop_body_inv.
    exists sample. split; [done|]. rewrite Hev. unfold body_events.
    apply elem_of_app. right. apply elem_of_cons. right.
    apply elem_of_cons. by left.
Qed.

(** C6 at work: with [use_ddim] the first call of a run is to
    [ddim_sample_loop], for one image of side two. *)
Lemma C6_dispatch_to_sampler_witness :
  let env := Example.env 2 1 false true 1 0 in
  ∃ c, (main env 2).2 !! 9%nat = Some (EvSample c)
    ∧ call_fn c = ddim_sample_loop
    ∧ call_shape c = [1; 3; 2; 2].
Proof.
  intros env. eexists. split; [vm_compute; reflexivity|].
  apply (proj1 (C6_dispatch_to_sampler env 2)).
  eapply (list_elem_of_lookup_2 _ 9%nat). vm_compute; reflexivity.
Defined.

(** C8: the guidance configuration is passed through unchanged.  The
    dictionary handed to every sampling call of a run maps [guide_start],
    [guide_scale] and [blur_sigma] to the values of the command line and
    holds nothing else, and an iteration leaves it as it found it; the
    sampling routine, which receives the dictionary by reference, is taken
    not to write to it. *)
Theorem C8_guidance_passed_through (env : Env) (fuel : nat) :
  sampler_keeps_guidance env →
  (∀ c, EvSample c ∈ (main env fuel).2 →
     call_guidance_kwargs c = guidance_kwargs0 env
     ∧ call_guidance_kwargs c !! "guide_start"
       = Some (guide_start (env_args env))
     ∧ call_guidance_kwargs c !! "guide_scale"
       = Some (guide_scale (env_args env))
     ∧ call_guidance_kwargs c !! "blur_sigma"
       = Some (blur_sigma (env_args env))
     ∧ dom (call_guidance_kwargs c)
       = ({["guide_start"; "guide_scale"; "blur_sigma"]} : gset string))
  ∧ (∀ st st', (loop_body env st).1 = Ok st' →
       guidance_kwargs st' = guidance_kwargs st).
Proof.
  intros Hkeeps.
  assert (∀ st st', (loop_body env st).1 = Ok st' →
            guidance_kwargs st' = guidance_kwargs st) as Hbody.
  { intros st st' (sample & gathered & _ & _ & -> & _)%loop_body_inv.
    simpl. by rewrite Hkeeps. }
  split; [|exact Hbody].
  intros c Hc%main_samples.
  assert (call_guidance_kwargs c = guidance_kwargs0 env) as ->.
  { apply (sampling_loop_samples env
             (λ c, call_guidance_kwargs c = guidance_kwargs0 env)
             (λ st, guidance_kwargs st = guidance_kwargs0 env))
      with fuel (init_state env); [| |reflexivity|exact Hc].
    - by intros st ->.
    - intros st st' Hst Hb. by rewrite (Hbody st st' Hb). }
  unfold guidance_kwargs0. split_and!; [done|..].
  - rewrite 2!lookup_insert_ne by done. apply lookup_insert_eq.
  - rewrite lookup_insert_ne by done. apply lookup_insert_eq.
  - apply lookup_insert_eq.
  - rewrite !dom_insert_L, dom_empty_L. set_solver.
Qed.

(** C8 at work: the second call of a run gets the dictionary of the
    command line. *)
Lemma C8_guidance_passed_through_witness :
  let env := Example.env 2 1 false false 1 0 in
  ∃ c, (main env 2).2 !! 12%nat = Some (EvSample c)
    ∧ call_guidance_kwargs c !! "guide_scale" = Some (PFloat (Fin (11 # 10)))
    ∧ call_guidance_kwargs c !! "guide_start" = Some (PInt 250)
    ∧ call_guidance_kwargs c !! "blur_sigma" = Some (PFloat (Fin 3)).
Proof.
  intros env. eexists. split; [vm_compute; reflexivity|].
  assert (sampler_keeps_guidance env) as Hkeeps by (intros r k c; reflexivity).
  destruct (proj1 (C8_guidance_passed_through env 2 Hkeeps) _
              (list_elem_of_lookup_2 (main env 2).2 12%nat _
                 ltac:(vm_compute; reflexivity)))
    as (_ & Hstart & Hscale & Hsigma & _).
  split; [exact Hscale|]. split; [exact Hstart|exact Hsigma].
Defined.

(** The assumption of C8 is needed: a routine that writes to the dictionary
    it is handed is seen by the next call. *)
Example meddling_sampler_is_seen :
  let env := Example.meddling_env 2 1 1 0 in
  ∃ c, (main env 2).2 !! 12%nat = Some (EvSample c)
    ∧ call_guidance_kwargs c !! "guide_scale" = Some PNone.
Proof. eexists. split; vm_compute; reflexivity. Qed.

(** An iteration from any state, when the sampling routine returns the
    requested shapes: it completes and appends what the workers contribute. *)
Lemma loop_body_returns (env : Env) (st : state) :
  sampler_shape_ok env →
  (loop_body env st).1
  = Ok (State (all_images st ++ gathered_images env (iter st))
          (if class_cond (env_args env)
           then all_labels st ++ gathered_labels env (iter st)
           else all_labels st)
          (env_sample_loop env (me env) (iter st)
             (make_call env (me env) (iter st) (guidance_kwargs st))).2
          (S (iter st))).
Proof.
  intros Hsampler. unfold loop_body.
  set (c := make_call env (me env) (iter st) (guidance_kwargs st)).
  destruct (Hsampler (me env) (iter st) c) as [Hshape _].
  destruct (env_sample_loop env (me env) (iter st) c) as [raw gk'] eqn:Hs.
  unfold postprocess.
  rewrite (permute_0231_shape _ (batch_rows env) 3
             (image_side env) (image_side env)) by exact Hshape.
  assert ((λ r, contribution env r (iter st)) <$> workers env
          = Ok <$> gathered_images env (iter st)) as ->.
  { unfold gathered_images. rewrite <- list_fmap_compose.
    apply list_fmap_ext. intros _ r _. by apply contribution_ok. }
  rewrite all_gather_Ok. unfold gathered_labels.
  by destruct (class_cond (env_args env)); munfold.
Qed.

Lemma image_of_wf (env : Env) (r k : nat) :
  sampler_shape_ok env → wf_array (image_of env r k).
Proof.
  intros Hsampler. unfold wf_array, image_of. simpl.
  destruct (Hsampler r k (make_call env r k (worker_gk env r k)))
    as [Hshape Hwf].
  rewrite length_permute_data; [lia|].
  rewrite length_fmap. unfold raw_sample. rewrite Hwf, Hshape. simpl.
  unfold batch_rows, image_side. lia.
Qed.

(** C7: each collective gather collects the tensor of every worker.  An
    iteration extends [all_images] by exactly [world_size] arrays, the one
    at index [r] being what worker [r] contributed, each of shape
    [(batch_size, image_size, image_size, 3)]; with [class_cond] it extends
    [all_labels] by the [world_size] label arrays of the workers, and
    without it leaves [all_labels] alone.  The sampling routine is taken to
    return tensors of the requested shape. *)
Theorem C7_gather_collects_every_worker (env : Env) (st : state) :
  0 ≤ env_world_size env →
  sampler_shape_ok env →
  ∃ st' new_images,
    (loop_body env st).1 = Ok st'
    ∧ all_images st' = all_images st ++ new_images
    ∧ Z.of_nat (length new_images) = env_world_size env
    ∧ (∀ r, (r < length new_images)%nat →
         ∃ a, new_images !! r = Some a
           ∧ contribution env r (iter st) = Ok a
           ∧ shape a = [Z.to_nat (batch_size (env_args env));
                        Z.to_nat (image_size (env_args env));
                        Z.to_nat (image_size (env_args env)); 3%nat]
           ∧ wf_array a)
    ∧ (if class_cond (env_args env)
       then ∃ new_labels,
              all_labels st' = all_labels st ++ new_labels
              ∧ Z.of_nat (length new_labels) = env_world_size env
              ∧ ∀ r, (r < length new_labels)%nat →
                  new_labels !! r = Some (env_th_randint env r (iter st))
       else all_labels st' = all_labels st).
Proof.
  intros Hworld Hsampler.
  eexists. exists (gathered_images env (iter st)).
  split; [by apply loop_body_returns|]. simpl.
  assert (∀ A (f : nat → A) r,
            (r < length (f <$> workers env))%nat →
            (f <$> workers env) !! r = Some (f r)) as Hlookup.
  { intros A f r. rewrite length_fmap. unfold workers.
    rewrite length_seq. intros Hr.
    by rewrite list_lookup_fmap, lookup_seq_lt. }
  split_and!; [done|..].
  - unfold gathered_images, workers. rewrite length_fmap, length_seq. lia.
  - intros r Hr. exists (image_of env r (iter st)).
    split_and!; [|by apply contribution_ok|done|by apply image_of_wf].
    by apply (Hlookup _ (λ r, image_of env r (iter st))).
  - destruct (class_cond (env_args env)); [|done].
    exists (gathered_labels env (iter st)). split_and!; [done|..].
    + unfold gathered_labels, workers. rewrite length_fmap, length_seq. lia.
    + intros r Hr.
      by apply (Hlookup _ (λ r, env_th_randint env r (iter st))).
Qed.

(** C7 at work: three workers, class labels, batches of two. *)
Lemma C7_gather_collects_every_worker_witness :
  let env := Example.env 6 2 true false 3 1 in
  ∃ st', (loop_body env (init_state env)).1 = Ok st'
    ∧ length (all_images st') = 3%nat
    ∧ length (all_labels st') = 3%nat.
Proof.
  intros env.
  assert (sampler_shape_ok env) as Hsampler.
  { intros r k c. split; [reflexivity|].
    unfold wf_array. simpl. by rewrite length_fmap, length_seq. }
  destruct (C7_gather_collects_every_worker env (init_state env)
              ltac:(simpl; lia) Hsampler)
    as (st' & new_images & Hst' & _).
  exists st'. split; [exact Hst'|].
  assert (Ok st' = (loop_body env (init_state env)).1) as Heq
    by (symmetry; exact Hst').
  vm_compute in Heq. injection Heq as ->. split; reflexivity.
Defined.

Lemma pixel_array_bytes (env : Env) (a : ndarray Z) :
  pixel_array env a →
  Forall (λ v, is_pixel env v ∧ 0 ≤ v ≤ 255) (data a).
Proof.
  unfold pixel_array. intros H. eapply Forall_impl; [exact H|].
  intros v [x ->]. split; [by exists x|apply pixel_range].
Qed.

(** C9: every pixel value appended to [all_images], and so every element of
    the saved sample array, is an unsigned 8-bit integer in [0, 255]: it is
    the image of a raw sample value [x] under [x -> (x + 1) * 127.5], the
    clamp to [0, 255] and the cast to uint8, which after the clamp is a mere
    truncation.  This holds for every float rounding. *)
Theorem C9_pixels_are_bytes (env : Env) (fuel : nat) :
  let px := pixel (env_round env) (env_cast_nonfinite env) in
  (∀ x, 0 ≤ px x ≤ 255
     ∧ ∀ q, clamp 0 255
              (fmul_pos (env_round env) (fadd (env_round env) x 1) (255 # 2))
            = Fin q →
         (0 <= q <= 255)%Q ∧ px x = Qnum q / Zpos (Qden q))
  ∧ (∀ st st', (loop_body env st).1 = Ok st' →
       ∃ new, all_images st' = all_images st ++ new
         ∧ Forall (λ a, Forall (λ v, is_pixel env v ∧ 0 ≤ v ≤ 255) (data a))
             new)
  ∧ (∀ st', (sampling_loop env fuel (init_state env)).1 = Ok st' →
       Forall (λ a, Forall (λ v, is_pixel env v ∧ 0 ≤ v ≤ 255) (data a))
         (all_images st'))
  ∧ (∀ path arr rest, EvSavez path (arr :: rest) ∈ (main env fuel).2 →
       Forall (λ v, is_pixel env v ∧ 0 ≤ v ≤ 255) (data arr)).
Proof.
  intros px. split_and!.
  - intros x. split; [apply pixel_range|].
    intros q Hq.
    pose proof (clamp_finite_range 0 255 _ q ltac:(done) Hq) as Hr.
    split; [done|]. unfold px, pixel. rewrite Hq.
    by apply to_uint8_in_byte_range.
  - intros st st' (new & Hnew & Hpix)%loop_body_pixels.
    exists new. split; [done|].
    eapply Forall_impl; [exact Hpix|]. apply pixel_array_bytes.
  - intros st' Hloop.
    eapply Forall_impl; [|apply pixel_array_bytes].
    eapply sampling_loop_pixels; [exact Hloop|]. constructor.
  - intros path arr rest (st & Hloop & Hsave)%main_savez.
    apply pixel_array_bytes.
    eapply save_results_pixels; [|exact Hsave].
    eapply sampling_loop_pixels; [exact Hloop|]. constructor.
Qed.

(** C9 at work: the raw values [-3/2, -1, -1/2, 0, 1/2, 1, 3/2, ...] of the
    example sampler become [0, 0, 63, 127, 191, 255, 255, ...]. *)
Lemma C9_pixels_are_bytes_witness :
  let env := Example.env 1 1 false false 1 0 in
  ∃ path arr,
    (main env 1).2 !! 13%nat = Some (EvSavez path [arr])
    ∧ take 7 (pixel Fin 0 <$> data (Example.sampler 0 0
                (make_call env 0 0 (guidance_kwargs0 env))).1)
      = [0; 0; 63; 127; 191; 255; 255]
    ∧ Forall (λ v, is_pixel env v ∧ 0 ≤ v ≤ 255) (data arr).
Proof.
  intros env. eexists _, _.
  split; [vm_compute; reflexivity|].
  split; [vm_compute; reflexivity|].
  apply (proj2 (proj2 (proj2 (C9_pixels_are_bytes env 1)))) with
    (path := "RESULTS/2024_01_01-120000_AM/samples_1x2x2x3.npz")
    (rest := []).
  eapply (list_elem_of_lookup_2 _ 13%nat). vm_compute; reflexivity.
Defined.

(** ** Runs that complete *)

Lemma count_quiet (p : event → bool) (l : list event) :
  filter (λ e, p e = true) l = [] → count p l = 0%nat.
Proof. unfold count. by intros ->. Qed.

Lemma save_results_quiet (env : Env) (p : event → bool) (st : state) :
  (∀ m, p (EvLog m) = false) → (∀ f a, p (EvSavez f a) = false) →
  filter (λ e, p e = true) (save_results env st).2 = [].
Proof.
  intros Hl Hs.
  destruct (save_results_events env st) as [->|(m & f & a & ->)]; [done|].
  by rewrite !filter_cons_False by (simpl; congruence).
Qed.

(** C2, as amended: the gather is inside the loop.  A run that completes
    performs one collective gather for every iteration of the sampling loop,
    and a second one for the labels when [class_cond] is set: as many
    sampling calls as iterations, as many gathers as iterations times one or
    two, and exactly one barrier. *)
Theorem C2_gathers_per_iteration (env : Env) (fuel : nat) :
  (main env fuel).1 = Ok tt →
  ∃ st, (sampling_loop env fuel (init_state env)).1 = Ok st
    ∧ count is_sample (main env fuel).2 = iter st
    ∧ count is_all_gather (main env fuel).2
      = (iter st * (if class_cond (env_args env) then 2 else 1))%nat
    ∧ count is_barrier (main env fuel).2 = 1%nat.
Proof.
  rewrite main_outcome, main_events.
  destruct (sampling_loop env fuel (init_state env)).1 as [st| |] eqn:Hloop;
    [|done..].
  intros Hsave. exists st. split; [done|]. rewrite Hsave.
  destruct (sampling_loop_counts env fuel _ _ Hloop) as (_ & Hs & Hg).
  simpl in Hs, Hg. rewrite Nat.sub_0_r in Hs, Hg.
  rewrite !count_app, Hs, Hg.
  rewrite !(count_quiet _ (setup env).2) by (by apply setup_quiet).
  rewrite !(count_quiet _ (save_results env st).2)
    by (by apply save_results_quiet).
  rewrite (count_quiet is_barrier (sampling_loop env fuel (init_state env)).2)
    by (by apply sampling_loop_quiet).
  unfold gathers_per_iteration. split_and!; unfold count; simpl; lia.
Qed.

(** C2 at work: a run for five samples with class labels. *)
Lemma C2_gathers_per_iteration_witness :
  let env := Example.env 5 2 true false 2 0 in
  count is_all_gather (main env 2).2 = 4%nat
  ∧ count is_barrier (main env 2).2 = 1%nat.
Proof.
  intros env.
  destruct (C2_gathers_per_iteration env 2 ltac:(vm_compute; reflexivity))
    as (st & Hst & _ & Hgather & Hbarrier).
  split; [|exact Hbarrier].
  assert (Ok st = (sampling_loop env 2 (init_state env)).1) as Heq
    by (symmetry; exact Hst).
  vm_compute in Heq. injection Heq as ->. exact Hgather.
Defined.

(** C2 as stated fails: a run for two samples in batches of one on a single
    worker completes with two collective gathers, not one. *)
Lemma C2_single_gather_counterexample :
  let env := Example.env 2 1 false false 1 0 in
  (main env 2).1 = Ok tt
  ∧ count is_all_gather (main env 2).2 = 2%nat
  ∧ ¬ (∀ env fuel, (main env fuel).1 = Ok tt →
         count is_all_gather (main env fuel).2 = 1%nat).
Proof.
  intros env. split; [vm_compute; reflexivity|].
  split; [vm_compute; reflexivity|].
  intros H. specialize (H env 2%nat ltac:(vm_compute; reflexivity)).
  vm_compute in H. discriminate H.
Qed.

(** The output file lies in the logger directory and is a [.npz] file. *)
Lemma out_path_under_logger_dir (env : Env) (arr : ndarray Z) :
  ∃ sep, (sep = EmptyString ∨ sep = "/")
    ∧ out_path_of env arr
      = env_logger_dir env +:+ sep +:+ "samples_"
        +:+ String.concat "x" (pretty <$> shape arr) +:+ ".npz".
Proof.
  unfold out_path_of, os_path_join. simpl.
  destruct (bool_decide (env_logger_dir env = EmptyString)
            || ends_with_slash (env_logger_dir env)).
  - exists EmptyString. split; [by left|done].
  - exists "/". split; [by right|done].
Qed.

(** The writes of the expected trace. *)
Lemma expected_trace_savez (env : Env) :
  filter (λ e, is_savez e = true) (expected_trace env)
  = if env_rank env =? 0
    then [EvSavez (out_path_of env (final_images env)) (saved_arrays env)]
    else [].
Proof.
  unfold expected_trace. rewrite !filter_app.
  rewrite setup_quiet by done.
  assert (filter (λ e, is_savez e = true)
            (k ← seq 0 (iterations env); iteration_events env k) = []) as ->.
  { induction (seq 0 (iterations env)) as [|k l IH]; [done|]. csimpl.
    rewrite filter_app, IH, app_nil_r.
    unfold iteration_events, body_events.
    by destruct (class_cond (env_args env)). }
  unfold save_events. by destruct (env_rank env =? 0).
Qed.

(** C3: after the sampling loop the gathered results are written to disk.
    Whatever is written in a run is written by the worker of rank 0, after
    the loop has exited: a [.npz] file in the logger directory, holding the
    concatenation of [all_images] cut to [num_samples] rows and, with
    [class_cond], the concatenation of [all_labels] cut likewise.  And it is
    written: when the external routines return the requested shapes, a run
    with the fuel for its iterations completes, and between the events of
    the loop and the barrier rank 0 writes once and any other rank not at
    all. *)
Theorem C3_results_saved_by_rank_0 (env : Env) (fuel : nat) :
  (∀ path arrays, EvSavez path arrays ∈ (main env fuel).2 →
     env_rank env = 0
     ∧ ∃ st arr0 arr labels sep,
         (sampling_loop env fuel (init_state env)).1 = Ok st
         ∧ np_concatenate (all_images st) = Ok arr0
         ∧ slice_upto arr0 (num_samples (env_args env)) = Ok arr
         ∧ (if class_cond (env_args env)
            then ∃ l0 l, np_concatenate (all_labels st) = Ok l0
                   ∧ slice_upto l0 (num_samples (env_args env)) = Ok l
                   ∧ labels = [l]
            else labels = [])
         ∧ arrays = arr :: labels
         ∧ (sep = EmptyString ∨ sep = "/")
         ∧ path = env_logger_dir env +:+ sep +:+ "samples_"
                  +:+ String.concat "x" (pretty <$> shape arr) +:+ ".npz")
  ∧ (1 ≤ num_samples (env_args env) →
     1 ≤ batch_size (env_args env) →
     1 ≤ env_world_size env →
     sampler_shape_ok env →
     (class_cond (env_args env) = true → randint_shape_ok env) →
     (iterations env ≤ fuel)%nat →
     ∃ arr labels,
       main env fuel
       = (Ok tt,
          (setup env).2 ++ [EvLog "sampling..."]
          ++ (sampling_loop env fuel (init_state env)).2
          ++ (if env_rank env =? 0
              then [EvLog ("saving to " +:+ out_path_of env arr);
                    EvSavez (out_path_of env arr) (arr :: labels)]
              else [])
          ++ closing_events env)
       ∧ filter (λ e, is_savez e = true) (main env fuel).2
         = (if env_rank env =? 0
            then [EvSavez (out_path_of env arr) (arr :: labels)] else [])).
Proof.
  split.
  - intros path arrays (st & Hloop & Hin)%main_savez.
    destruct (save_results env st).1 as [u| |] eqn:Hsave;
      [|rewrite save_results_failed in Hin by (intros u; congruence);
        by apply elem_of_nil in Hin..].
    destruct (save_results_inv env st u Hsave)
      as (arr0 & arr & labels & Harr0 & Harr & Hlabels & Hev).
    rewrite Hev in Hin.
    destruct (Z.eqb_spec (env_rank env) 0) as [Hrank|_];
      [|by apply elem_of_nil in Hin].
    apply elem_of_cons in Hin as [|Hin]; [done|].
    apply list_elem_of_singleton in Hin as [= -> ->].
    split; [done|].
    destruct (out_path_under_logger_dir env arr) as (sep & Hsep & Hpath).
    exists st, arr0, arr, labels, sep. by split_and!.
  - intros Hsamples Hbatch Hworld Hsampler Hrandint Hfuel.
    destruct (sampling_loop_after env Hsampler Hbatch Hworld
                (iterations env) 0 fuel eq_refl) as [Hloop _].
    specialize (Hloop Hfuel). rewrite <- init_state_after in Hloop.
    pose proof (main_completes env Hsampler Hbatch Hworld Hsamples Hrandint
                  fuel Hfuel) as Hmain.
    exists (final_images env),
      (if class_cond (env_args env) then [final_labels env] else []).
    rewrite Hmain, Hloop. simpl.
    split; [done|apply expected_trace_savez].
Qed.

Lemma example_sampler_shape_ok ns bs cc ddim ws rk :
  sampler_shape_ok (Example.env ns bs cc ddim ws rk).
Proof.
  intros r k c. split; [reflexivity|].
  unfold wf_array. simpl. by rewrite length_fmap, length_seq.
Qed.

Lemma example_randint_shape_ok ns bs cc ddim ws rk :
  randint_shape_ok (Example.env ns bs cc ddim ws rk).
Proof.
  intros r k. split; [reflexivity|].
  unfold wf_array. simpl. rewrite length_replicate. lia.
Qed.

(** C3 at work: three samples with labels on two workers; rank 0 writes
    both arrays, rank 1 writes nothing. *)
Lemma C3_results_saved_by_rank_0_witness :
  (let env := Example.env 3 1 true false 2 0 in
   ∃ arr l sep,
     filter (λ e, is_savez e = true) (main env 2).2
     = [EvSavez (out_path_of env arr) [arr; l]]
     ∧ out_path_of env arr
       = "RESULTS/2024_01_01-120000_AM" +:+ sep +:+ "samples_"
         +:+ String.concat "x" (pretty <$> shape arr) +:+ ".npz")
  ∧ (let env := Example.env 3 1 true false 2 1 in
     filter (λ e, is_savez e = true) (main env 2).2 = []).
Proof.
  split.
  - intros env.
    destruct (C3_results_saved_by_rank_0 env 2) as [Hany Hrun].
    destruct (Hrun ltac:(simpl; lia) ltac:(simpl; lia) ltac:(simpl; lia)
                (example_sampler_shape_ok _ _ _ _ _ _)
                (λ _, example_randint_shape_ok _ _ _ _ _ _)
                ltac:(vm_compute; lia))
      as (arr & labels & _ & Hsavez).
    assert (EvSavez (out_path_of env arr) (arr :: labels) ∈ (main env 2).2)
      as Hin.
    { eapply (proj1 (list_elem_of_filter _ _ _)).
      rewrite Hsavez. by left. }
    destruct (Hany _ _ Hin)
      as (_ & st & arr0 & arr' & labels' & sep & _ & _ & _ & Hlabels
          & [= <- <-] & _ & Hpath).
    destruct Hlabels as (l0 & l & _ & _ & ->).
    exists arr, l, sep. split; [exact Hsavez|exact Hpath].
  - intros env.
    destruct (proj2 (C3_results_saved_by_rank_0 env 2)
                ltac:(simpl; lia) ltac:(simpl; lia) ltac:(simpl; lia)
                (example_sampler_shape_ok _ _ _ _ _ _)
                (λ _, example_randint_shape_ok _ _ _ _ _ _)
                ltac:(vm_compute; lia))
      as (arr & labels & _ & Hsavez).
    exact Hsavez.
Defined.

(** The run of the first example of C3, evaluated. *)
Example C3_example_trace :
  let env := Example.env 3 1 true false 2 0 in
  ∃ arr l,
    filter (λ e, is_savez e = true) (main env 2).2
    = [EvSavez "RESULTS/2024_01_01-120000_AM/samples_3x2x2x3.npz" [arr; l]]
    ∧ shape l = [3%nat] ∧ data l = [0; 1; 1].
Proof. eexists _, _. vm_compute. split_and!; reflexivity. Qed.

(** C4, as amended: with [num_samples >= 1], [batch_size >= 1] and a world
    size of at least one, the array saved by rank 0 holds exactly
    [num_samples] images.  The run completes and writes once; the array
    written is the concatenation of all gathered batches cut to its first
    [num_samples] rows, of shape [(num_samples, image_size, image_size, 3)];
    with [class_cond] the label array written with it is cut likewise to
    [num_samples] entries.  The external routines are taken to return the
    requested shapes. *)
Theorem C4_saved_array_has_num_samples (env : Env) (fuel : nat) :
  1 ≤ num_samples (env_args env) →
  1 ≤ batch_size (env_args env) →
  1 ≤ env_world_size env →
  env_rank env = 0 →
  sampler_shape_ok env →
  (class_cond (env_args env) = true → randint_shape_ok env) →
  (iterations env ≤ fuel)%nat →
  ∃ st arr0 arr labels,
    (main env fuel).1 = Ok tt
    ∧ filter (λ e, is_savez e = true) (main env fuel).2
      = [EvSavez (out_path_of env arr) (arr :: labels)]
    ∧ (sampling_loop env fuel (init_state env)).1 = Ok st
    ∧ np_concatenate (all_images st) = Ok arr0
    ∧ slice_upto arr0 (num_samples (env_args env)) = Ok arr
    ∧ data arr0 = mjoin (data <$> all_images st)
    ∧ shape arr = [Z.to_nat (num_samples (env_args env));
                   Z.to_nat (image_size (env_args env));
                   Z.to_nat (image_size (env_args env)); 3%nat]
    ∧ Z.of_nat (leading_dim arr) = num_samples (env_args env)
    ∧ wf_array arr
    ∧ data arr
      = take (Z.to_nat (num_samples (env_args env))
              * (Z.to_nat (image_size (env_args env))
                 * Z.to_nat (image_size (env_args env)) * 3))
          (data arr0)
    ∧ (if class_cond (env_args env)
       then ∃ l0 l, labels = [l]
              ∧ np_concatenate (all_labels st) = Ok l0
              ∧ slice_upto l0 (num_samples (env_args env)) = Ok l
              ∧ shape l = [Z.to_nat (num_samples (env_args env))]
              ∧ wf_array l
       else labels = []).
Proof.
  intros Hsamples Hbatch Hworld Hrank Hsampler Hrandint Hfuel.
  destruct (sampling_loop_after env Hsampler Hbatch Hworld
              (iterations env) 0 fuel eq_refl) as [Hloop _].
  specialize (Hloop Hfuel). rewrite <- init_state_after in Hloop.
  pose proof (main_completes env Hsampler Hbatch Hworld Hsamples Hrandint
                fuel Hfuel) as Hmain.
  destruct (final_images_saved env Hbatch Hworld Hsamples)
    as (arr0 & Harr0 & Harr).
  exists (state_after env (iterations env)), arr0, (final_images env),
    (if class_cond (env_args env) then [final_labels env] else []).
  rewrite Hmain, Hloop. simpl.
  split_and!; [done| |done|done|done| |done| | | |].
  - rewrite expected_trace_savez, Hrank. done.
  - by apply np_concatenate_inv in Harr0 as [_ ?].
  - unfold leading_dim. simpl. lia.
  - by apply wf_final_images.
  - apply np_concatenate_inv in Harr0 as [_ ->]. done.
  - pose proof (final_labels_saved env Hbatch Hworld Hsamples Hrandint)
      as Hlabels.
    pose proof (wf_final_labels env Hbatch Hworld Hsamples Hrandint) as Hwf.
    destruct (class_cond (env_args env)); [|done].
    destruct (Hlabels eq_refl) as (l0 & Hl0 & Hl).
    exists l0, (final_labels env). split_and!; [done..|]. by apply Hwf.
Qed.

(** C4 at work: five samples with labels, batches of two, two workers:
    eight images are gathered and five are saved. *)
Lemma C4_saved_array_has_num_samples_witness :
  let env := Example.env 5 2 true false 2 0 in
  ∃ st arr labels,
    (sampling_loop env 2 (init_state env)).1 = Ok st
    ∧ length (all_images st) = 4%nat
    ∧ filter (λ e, is_savez e = true) (main env 2).2
      = [EvSavez (out_path_of env arr) (arr :: labels)]
    ∧ shape arr = [5%nat; 2%nat; 2%nat; 3%nat]
    ∧ length (data arr) = 60%nat.
Proof.
  intros env.
  destruct (C4_saved_array_has_num_samples env 2 ltac:(simpl; lia)
              ltac:(simpl; lia) ltac:(simpl; lia) eq_refl
              (example_sampler_shape_ok _ _ _ _ _ _)
              (λ _, example_randint_shape_ok _ _ _ _ _ _)
              ltac:(vm_compute; lia))
    as (st & arr0 & arr & labels & _ & Hsavez & Hst & _ & _ & _ & Hshape & _
        & Hwf & _).
  exists st, arr, labels.
  split; [exact Hst|]. split.
  { assert (Ok st = (sampling_loop env 2 (init_state env)).1) as Heq
      by (symmetry; exact Hst).
    vm_compute in Heq. injection Heq as ->. reflexivity. }
  split; [exact Hsavez|]. split; [exact Hshape|].
  unfold wf_array in Hwf. rewrite Hwf, Hshape. reflexivity.
Defined.

(** C4 as stated fails without a lower bound on [num_samples]: for
    [num_samples = 0] the loop body never runs, [np.concatenate] of the
    empty list raises, and nothing is saved. *)
Lemma C4_no_samples_counterexample :
  let env := Example.env 0 1 false false 1 0 in
  1 ≤ batch_size (env_args env) ∧ 1 ≤ env_world_size env
  ∧ (∀ fuel, (main env fuel).1 = Raise ValueError
       ∧ filter (λ e, is_savez e = true) (main env fuel).2 = [])
  ∧ ¬ (∃ fuel path arr rest,
         EvSavez path (arr :: rest) ∈ (main env fuel).2
         ∧ Z.of_nat (leading_dim arr) = num_samples (env_args env)).
Proof.
  intros env.
  assert (∀ fuel, main env fuel = main env 0) as Hfuel.
  { intros fuel. unfold main. by destruct fuel. }
  assert (∀ fuel, (main env fuel).1 = Raise ValueError
            ∧ filter (λ e, is_savez e = true) (main env fuel).2 = [])
    as Hrun.
  { intros fuel. rewrite Hfuel. split; vm_compute; reflexivity. }
  split; [simpl; lia|]. split; [simpl; lia|]. split; [exact Hrun|].
  intros (fuel & path & arr & rest & Hin & _).
  by eapply (quiet_not_elem is_savez); [apply (Hrun fuel)| |exact Hin].
Qed.

(** * Further properties *)

(** ** Dictionaries and the command-line defaults *)

Lemma dict_get_None {V} (d : pydict V) (k : string) :
  dict_get d k = None ↔ k ∉ d.*1.
Proof.
  induction d as [|[k' v] d IH]; csimpl.
  - split; [intros _; apply not_elem_of_nil|done].
  - rewrite not_elem_of_cons. case_decide as Hk.
    + split; [done|]. by intros [? _].
    + rewrite IH. split; [by intros ?; split|by intros [_ ?]].
Qed.

Lemma dict_contains_false {V} (d : pydict V) (k : string) :
  dict_contains d k = false ↔ dict_get d k = None.
Proof.
  unfold dict_contains. rewrite bool_decide_eq_false. by rewrite dict_get_None.
Qed.

Lemma dict_setitem_new {V} (d : pydict V) (k : string) (v : V) :
  k ∉ d.*1 → dict_setitem d k v = d ++ [(k, v)].
Proof.
  induction d as [|[k' v'] d IH]; csimpl; [done|].
  intros [Hne Hd]%not_elem_of_cons.
  rewrite decide_False by done. by rewrite IH.
Qed.

Lemma dict_get_app {V} (d1 d2 : pydict V) (k : string) :
  dict_get (d1 ++ d2) k
  = match dict_get d1 k with Some v => Some v | None => dict_get d2 k end.
Proof.
  induction d1 as [|[k' v'] d1 IH]; simpl; [done|]. by case_decide.
Qed.

Lemma dict_get_elem_of {V} (d : pydict V) (k : string) (v : V) :
  NoDup d.*1 → (k, v) ∈ d → dict_get d k = Some v.
Proof.
  induction d as [|[k' v'] d IH]; csimpl; [by intros _ ?%elem_of_nil|].
  intros [Hk' Hd]%NoDup_cons [[= -> ->]|Hin]%elem_of_cons.
  - by rewrite decide_True.
  - rewrite decide_False; [by apply IH|].
    intros ->. apply Hk'. by apply (list_elem_of_fmap_2 fst _ (k, v)).
Qed.

(** One step of the loop of [update_]: nothing, or a new last entry. *)
Lemma update_step_cases {V} (d default : pydict V) (key : string) :
  (update_step d default key = default
   ∧ (key ∈ default.*1 ∨ dict_get d key = None))
  ∨ ∃ v, dict_get d key = Some v
      ∧ update_step d default key = default ++ [(key, v)]
      ∧ key ∉ default.*1.
Proof.
  unfold update_step, dict_contains. case_bool_decide as Hin; [by eauto|].
  destruct (dict_get d key) as [v|] eqn:Hv; [|by eauto].
  right. exists v. by rewrite dict_setitem_new.
Qed.


Lemma update_fold_get {V} (d a : pydict V) (ks : list string) (k : string) :
  dict_get (foldl (update_step d) a ks) k
  = match dict_get a k with
    | Some v => Some v
    | None => if decide (k ∈ ks) then dict_get d k else None
    end.
Proof.
  revert a. induction ks as [|key ks IH]; intros a; simpl.
  { by destruct (dict_get a k). }
  rewrite IH.
  assert (∀ o : option V,
            k ≠ key →
            (if decide (k ∈ ks) then o else None)
            = (if decide (k ∈ key :: ks) then o else None)) as Hother.
  { intros o Hne. destruct (decide (k ∈ ks)) as [Hin|Hin].
    - by rewrite decide_True by (by right).
    - by rewrite decide_False by (by intros [?|?]%elem_of_cons). }
  destruct (update_step_cases d a key) as [[-> Hkey]|(v & Hv & -> & Hnew)].
  - destruct (dict_get a k) eqn:Hk; [done|].
    destruct (decide (k = key)) as [->|Hne]; [|by apply Hother].
    rewrite (decide_True (P := key ∈ key :: ks)) by (by left).
    destruct Hkey as [Hin|Hnone]; [by apply dict_get_None in Hk|].
    rewrite Hnone. by case_decide.
  - rewrite dict_get_app. simpl.
    destruct (dict_get a k) eqn:Hk; [done|].
    destruct (decide (key = k)) as [->|Hne]; [|by apply Hother].
    by rewrite Hv, (decide_True (P := k ∈ k :: ks)) by (by left).
Qed.

Lemma update_get {V} (default d : pydict V) (k : string) :
  dict_get (update_ default d) k
  = match dict_get default k with
    | Some v => Some v
    | None => dict_get d k
    end.
Proof.
  unfold update_. rewrite update_fold_get.
  destruct (dict_get default k); [done|].
  case_decide as Hin; [done|]. symmetry. by apply dict_get_None.
Qed.

Lemma filter_ext_elem {A} (P1 P2 : A → Prop)
    `{!∀ x, Decision (P1 x), !∀ x, Decision (P2 x)} (l : list A) :
  (∀ x, x ∈ l → P1 x ↔ P2 x) → filter P1 l = filter P2 l.
Proof.
  induction l as [|a l IH]; intros Hiff; [done|].
  assert (filter P1 l = filter P2 l) as Hl
    by (apply IH; intros x Hx; apply Hiff; by right).
  destruct (decide (P1 a)) as [Ha|Ha].
  - rewrite !filter_cons_True; [by rewrite Hl|..]; [|done].
    apply Hiff; [by left|done].
  - rewrite !filter_cons_False; [done|..]; [|done].
    intros Ha'. apply Ha, Hiff; [by left|done].
Qed.

(** X1: [update_] fills in, it never overwrites.  After
    [update_(default, d)] a key that [default] had keeps its value, and any
    other key has the value [d] gives it, if any. *)
Theorem X1_update_lookup {V} (default d : pydict V) (k : string) :
  dict_get (update_ default d) k
  = match dict_get default k with
    | Some v => Some v
    | None => dict_get d k
    end.
Proof. apply update_get. Qed.

Lemma update_fold_order {V} (d a d2 : pydict V) :
  (∀ k v, (k, v) ∈ d2 → dict_get d k = Some v) →
  NoDup d2.*1 →
  foldl (update_step d) a d2.*1 = a ++ filter (λ kv, kv.1 ∉ a.*1) d2.
Proof.
  revert a. induction d2 as [|[k v] d2 IH]; intros a Hget Hnodup; csimpl.
  { by rewrite app_nil_r. }
  apply NoDup_cons in Hnodup as [Hk Hnodup].
  assert (∀ k' v', (k', v') ∈ d2 → dict_get d k' = Some v') as Hget'
    by (intros ???; apply Hget; by right).
  rewrite IH by done.
  destruct (update_step_cases d a k) as [[-> Hin]|(v' & Hv & -> & Hnew)].
  - destruct Hin as [Hin|Hnone].
    + by rewrite filter_cons_False by (simpl; by intros ?).
    + rewrite (Hget k v) in Hnone by (by left). done.
  - rewrite (Hget k v) in Hv by (by left). injection Hv as <-.
    rewrite filter_cons_True by done. rewrite <- app_assoc. simpl.
    do 2 f_equal. apply filter_ext_elem. intros [k' v'] Hin. simpl.
    rewrite fmap_app, not_elem_of_app. simpl.
    split; [by intros [? _]|]. intros Hk'. split; [done|].
    intros ->%list_elem_of_singleton. apply Hk.
    by apply (list_elem_of_fmap_2 fst _ (k, v')).
Qed.

Lemma update_order {V} (default d : pydict V) :
  NoDup d.*1 →
  update_ default d = default ++ filter (λ kv, kv.1 ∉ default.*1) d.
Proof.
  intros Hnodup. unfold update_. apply update_fold_order; [|done].
  intros k v. by apply dict_get_elem_of.
Qed.

(** X2: [update_] keeps the order of the entries.  For a dict [d], the
    result is [default] as it was, followed by the entries of [d] whose keys
    [default] did not have, in the order of [d]. *)
Theorem X2_update_order {V} (default d : pydict V) :
  NoDup d.*1 →
  update_ default d = default ++ filter (λ kv, kv.1 ∉ default.*1) d.
Proof. apply update_order. Qed.

(** X2 at work. *)
Lemma X2_update_order_witness :
  update_ [("a", 1); ("b", 2)] [("c", 3); ("b", 4); ("d", 5)]
  = [("a", 1); ("b", 2); ("c", 3); ("d", 5)].
Proof.
  rewrite (X2_update_order [("a", 1); ("b", 2)] [("c", 3); ("b", 4); ("d", 5)]).
  - reflexivity.
  - compute_done.
Defined.

Lemma update_fold_invariant {V} (P : pydict V → Prop) (d a : pydict V)
    (ks : list string) :
  P a → (∀ a k v, P a → k ∉ a.*1 → dict_get d k = Some v → P (a ++ [(k, v)])) →
  P (foldl (update_step d) a ks).
Proof.
  intros Ha Hstep. revert a Ha. induction ks as [|key ks IH]; intros a Ha;
    simpl; [done|].
  apply IH.
  destruct (update_step_cases d a key) as [[-> _]|(v & Hv & -> & Hnew)];
    [done|by apply Hstep].
Qed.

(** X3: [update_] keeps a dict a dict: if no key occurs twice in [default],
    none does in the result, whatever [d] is. *)
Theorem X3_update_keys_unique {V} (default d : pydict V) :
  NoDup default.*1 → NoDup (update_ default d).*1.
Proof.
  intros Hnodup. unfold update_.
  apply (update_fold_invariant (λ a, NoDup a.*1)); [done|].
  intros a k v Ha Hk _. rewrite fmap_app. simpl.
  apply NoDup_app. split_and!; [done| |apply NoDup_singleton].
  intros k' Hk' ->%list_elem_of_singleton. done.
Qed.

(** X3 at work. *)
Lemma X3_update_keys_unique_witness :
  NoDup (update_ [("a", 1); ("b", 2)] [("c", 3); ("b", 4); ("c", 5)]).*1.
Proof.
  apply (X3_update_keys_unique [("a", 1); ("b", 2)]).
  compute_done.
Defined.

Lemma update_fold_noop {V} (d a : pydict V) (ks : list string) :
  (∀ k, k ∈ ks → k ∈ a.*1) → foldl (update_step d) a ks = a.
Proof.
  induction ks as [|key ks IH]; intros Hks; simpl; [done|].
  assert (update_step d a key = a) as ->.
  { unfold update_step, dict_contains.
    by rewrite bool_decide_eq_true_2 by (apply Hks; by left). }
  apply IH. intros k Hk. apply Hks. by right.
Qed.

(** X4: [update_] is idempotent: a second [update_(default, d)] with the
    same [d] changes nothing, and neither does one with [default] itself. *)
Theorem X4_update_idempotent {V} (default d : pydict V) :
  update_ (update_ default d) d = update_ default d
  ∧ update_ default default = default.
Proof.
  split.
  - unfold update_ at 1. apply update_fold_noop. intros k Hk.
    destruct (dict_get (update_ default d) k) as [v|] eqn:Hget.
    + destruct (decide (k ∈ (update_ default d).*1)) as [|Hn]; [done|].
      apply dict_get_None in Hn. congruence.
    + rewrite update_get in Hget.
      destruct (dict_get default k); [done|].
      by apply dict_get_None in Hget.
  - by apply update_fold_noop.
Qed.

(** X5: the dictionary that [create_argparser] hands to the parser, entry by
    entry.  For dicts returned by the two external default functions it is
    the five defaults of the script, then the model and diffusion defaults
    whose keys the script does not set, then the guidance defaults whose
    keys neither of the two sets, each group in its own order. *)
Theorem X5_create_argparser_entries (model_defaults sag_defaults : pydict pyval) :
  NoDup model_defaults.*1 → NoDup sag_defaults.*1 →
  create_argparser model_defaults sag_defaults
  = script_defaults
    ++ filter (λ kv, kv.1 ∉ script_defaults.*1) model_defaults
    ++ filter (λ kv, (kv.1 ∉ script_defaults.*1) ∧ (kv.1 ∉ model_defaults.*1))
         sag_defaults.
Proof.
  intros Hmodel Hsag. unfold create_argparser.
  rewrite (update_order _ sag_defaults Hsag).
  rewrite (update_order _ model_defaults Hmodel).
  rewrite <- app_assoc. do 2 f_equal.
  apply list_filter_iff. intros [k v]. change ((k, v).1) with k.
  rewrite fmap_app, not_elem_of_app.
  split; intros [Hs Hm]; (split; [done|]).
  - intros Hk. apply Hm.
    apply list_elem_of_fmap in Hk as ([k' v'] & -> & Hin).
    apply (list_elem_of_fmap_2 fst _ (k', v')).
    by apply list_elem_of_filter.
  - intros ([k' v'] & -> & [_ Hin]%list_elem_of_filter)%list_elem_of_fmap.
    apply Hm. by apply (list_elem_of_fmap_2 fst _ (k', v')).
Qed.

(** X5 at work: a model default for [batch_size] and a guidance default for
    [image_size] are both dropped. *)
Lemma X5_create_argparser_entries_witness :
  create_argparser
    [("image_size", PInt 64); ("batch_size", PInt 1)]
    [("guide_scale", PInt 1); ("image_size", PInt 8)]
  = script_defaults ++ [("image_size", PInt 64); ("guide_scale", PInt 1)].
Proof.
  rewrite X5_create_argparser_entries; [reflexivity|compute_done..].
Defined.

(** X6: the precedence of the defaults.  A key gets the value of the script
    when the script sets it, else that of the model and diffusion defaults
    when they set it, else that of the guidance defaults; so no library
    default can change [num_samples], [batch_size], [use_ddim],
    [clip_denoised] or [model_path]. *)
Theorem X6_create_argparser_precedence
    (model_defaults sag_defaults : pydict pyval) (k : string) :
  dict_get (create_argparser model_defaults sag_defaults) k
  = match dict_get script_defaults k with
    | Some v => Some v
    | None =>
        match dict_get model_defaults k with
        | Some v => Some v
        | None => dict_get sag_defaults k
        end
    end
  ∧ (∀ v, (k, v) ∈ script_defaults →
       dict_get (create_argparser model_defaults sag_defaults) k = Some v).
Proof.
  assert (dict_get (create_argparser model_defaults sag_defaults) k
          = match dict_get script_defaults k with
            | Some v => Some v
            | None =>
                match dict_get model_defaults k with
                | Some v => Some v
                | None => dict_get sag_defaults k
                end
            end) as Hget.
  { unfold create_argparser. rewrite !update_get.
    by destruct (dict_get script_defaults k). }
  split; [done|]. intros v Hin. rewrite Hget.
  by rewrite (dict_get_elem_of script_defaults k v) by (done || compute_done).
Qed.

(** X6 at work: a library that ships its own [num_samples] is ignored. *)
Lemma X6_create_argparser_precedence_witness :
  dict_get (create_argparser [("num_samples", PInt 7)] [("num_samples", PInt 9)])
    "num_samples"
  = Some (PInt 10000).
Proof.
  apply (X6_create_argparser_precedence [("num_samples", PInt 7)]
           [("num_samples", PInt 9)] "num_samples").
  unfold script_defaults. apply elem_of_cons. right.
  apply elem_of_cons. by left.
Defined.

(** ** The name of the result directory *)

Lemma digit_inj (a b : Z) :
  0 ≤ a < 10 → 0 ≤ b < 10 → digit a = digit b → a = b.
Proof.
  intros Ha Hb H. apply (f_equal nat_of_ascii) in H. unfold digit in H.
  rewrite !nat_ascii_embedding in H by lia. lia.
Qed.

Lemma pad2_inj (a b : Z) :
  0 ≤ a < 100 → 0 ≤ b < 100 → pad2 a = pad2 b → a = b.
Proof.
  intros Ha Hb [= H1 H2].
  apply digit_inj in H1; [|Z.div_mod_to_equations; lia..].
  apply digit_inj in H2; [|Z.div_mod_to_equations; lia..].
  Z.div_mod_to_equations; lia.
Qed.

Lemma pad4_inj (a b : Z) :
  0 ≤ a < 10000 → 0 ≤ b < 10000 → pad4 a = pad4 b → a = b.
Proof.
  intros Ha Hb [= H1 H2 H3 H4].
  apply digit_inj in H1; [|Z.div_mod_to_equations; lia..].
  apply digit_inj in H2; [|Z.div_mod_to_equations; lia..].
  apply digit_inj in H3; [|Z.div_mod_to_equations; lia..].
  apply digit_inj in H4; [|Z.div_mod_to_equations; lia..].
  Z.div_mod_to_equations; lia.
Qed.

Lemma hour12_range (h : Z) : 0 ≤ h < 24 → 1 ≤ hour12 h ≤ 12.
Proof.
  intros Hh. unfold hour12.
  destruct (Z.eqb_spec (h mod 12) 0); Z.div_mod_to_equations; lia.
Qed.

Lemma hour_inj (h1 h2 : Z) :
  0 ≤ h1 < 24 → 0 ≤ h2 < 24 →
  hour12 h1 = hour12 h2 → am_pm h1 = am_pm h2 → h1 = h2.
Proof.
  intros H1 H2. unfold hour12, am_pm.
  destruct (Z.eqb_spec (h1 mod 12) 0), (Z.eqb_spec (h2 mod 12) 0),
    (Z.ltb_spec h1 12), (Z.ltb_spec h2 12);
    intros Hh Hp; try discriminate Hp; Z.div_mod_to_equations; lia.
Qed.

(** The name splits into its fields, which have fixed widths. *)
Lemma get_datetime_fields (t1 t2 : datetime) :
  get_datetime t1 = get_datetime t2 →
  pad4 (dt_year t1) = pad4 (dt_year t2)
  ∧ pad2 (dt_month t1) = pad2 (dt_month t2)
  ∧ pad2 (dt_day t1) = pad2 (dt_day t2)
  ∧ pad2 (hour12 (dt_hour t1)) = pad2 (hour12 (dt_hour t2))
  ∧ pad2 (dt_minute t1) = pad2 (dt_minute t2)
  ∧ pad2 (dt_second t1) = pad2 (dt_second t2)
  ∧ am_pm (dt_hour t1) = am_pm (dt_hour t2).
Proof.
  unfold get_datetime, pad4, pad2. cbn [String.append].
  intros [= Hy1 Hy2 Hy3 Hy4 Hm1 Hm2 Hd1 Hd2 Hh1 Hh2 Hi1 Hi2 Hs1 Hs2 Hp].
  change (am_pm (dt_hour t1) = am_pm (dt_hour t2)) in Hp.
  split_and!; congruence.
Qed.

(** X7: the name of the result directory tells the runs apart.  The text
    that [get_datetime] makes of a UTC clock reading has twenty characters,
    and two readings that differ, be it by one second, or by noon against
    midnight, give different names; so only runs started within the same
    second share a directory. *)
Theorem X7_get_datetime_injective (t1 t2 : datetime) :
  valid_datetime t1 → valid_datetime t2 →
  String.length (get_datetime t1) = 20%nat
  ∧ (get_datetime t1 = get_datetime t2 → t1 = t2).
Proof.
  intros (Hy1 & Hm1 & Hd1 & Hh1 & Hi1 & Hs1) (Hy2 & Hm2 & Hd2 & Hh2 & Hi2 & Hs2).
  split.
  - unfold get_datetime, pad4, pad2, am_pm.
    by destruct (dt_hour t1 <? 12).
  - intros (Hy & Hm & Hd & Hh & Hi & Hs & Hp)%get_datetime_fields.
    pose proof (hour12_range _ Hh1). pose proof (hour12_range _ Hh2).
    apply pad4_inj in Hy; [|lia..].
    apply pad2_inj in Hm; [|lia..]. apply pad2_inj in Hd; [|lia..].
    apply pad2_inj in Hh; [|lia..]. apply pad2_inj in Hi; [|lia..].
    apply pad2_inj in Hs; [|lia..].
    pose proof (hour_inj _ _ Hh1 Hh2 Hh Hp).
    destruct t1, t2; simpl in *. congruence.
Qed.

(** X7 at work: one second past noon and one second past midnight. *)
Lemma X7_get_datetime_injective_witness :
  get_datetime (DateTime 2024 3 9 12 0 1) = "2024_03_09-120001_PM"
  ∧ get_datetime (DateTime 2024 3 9 0 0 1) = "2024_03_09-120001_AM"
  ∧ (get_datetime (DateTime 2024 3 9 12 0 1)
     = get_datetime (DateTime 2024 3 9 0 0 1) →
     DateTime 2024 3 9 12 0 1 = DateTime 2024 3 9 0 0 1).
Proof.
  split; [reflexivity|]. split; [reflexivity|].
  apply (X7_get_datetime_injective (DateTime 2024 3 9 12 0 1)
           (DateTime 2024 3 9 0 0 1));
    unfold valid_datetime; simpl; lia.
Defined.

(** ** Runs that do not complete *)

Lemma sampling_loop_skipped (env : Env) (fuel : nat) (st : state) :
  loop_cond env st = false → sampling_loop env fuel st = (Ok st, []).
Proof. intros H. destruct fuel; simpl; by rewrite H. Qed.

(** X8: a run that is asked for no samples fails.  With [num_samples <= 0]
    the loop body never runs, [np.concatenate] gets the empty list and
    raises ValueError; the run ends there, right after the setup, without a
    sampling call, a gather, a write or the barrier. *)
Theorem X8_no_samples_raises (env : Env) (fuel : nat) :
  num_samples (env_args env) ≤ 0 →
  main env fuel
  = (Raise ValueError, (setup env).2 ++ [EvLog "sampling..."]).
Proof.
  intros Hns.
  assert (sampling_loop env fuel (init_state env) = (Ok (init_state env), []))
    as Hloop.
  { apply sampling_loop_skipped. unfold loop_cond. simpl.
    apply Z.ltb_ge. lia. }
  assert (save_results env (init_state env) = (Raise ValueError, []))
    as Hsave by (unfold save_results; by munfold).
  apply injective_projections.
  - rewrite main_outcome, Hloop. cbn [fst snd]. by rewrite Hsave.
  - rewrite main_events, Hloop. cbn [fst snd]. by rewrite Hsave.
Qed.

(** X8 at work: minus three samples. *)
Lemma X8_no_samples_raises_witness :
  let env := Example.env (-3) 2 true false 2 0 in
  (main env 5).1 = Raise ValueError ∧ length (main env 5).2 = 9%nat.
Proof.
  intros env.
  rewrite (X8_no_samples_raises env 5 ltac:(simpl; lia)).
  split; reflexivity.
Defined.

(** The loop from the start: [all_images] grows by the number of workers,
    and [all_labels] with it. *)
Lemma loop_lengths (env : Env) (fuel : nat) (st' : state) :
  (sampling_loop env fuel (init_state env)).1 = Ok st' →
  length (all_images st') = (iter st' * length (workers env))%nat
  ∧ (if class_cond (env_args env)
     then length (all_labels st') = length (all_images st')
     else all_labels st' = []).
Proof.
  apply (sampling_loop_invariant env
           (λ s, length (all_images s) = (iter s * length (workers env))%nat
                 ∧ (if class_cond (env_args env)
                    then length (all_labels s) = length (all_images s)
                    else all_labels s = []))).
  - intros s s' [Himg Hlab]
      (sample & gathered & _ & Hg & -> & _)%loop_body_inv.
    assert (length gathered = length (workers env)) as Hlen
      by (by rewrite <- (length_fmap Ok gathered), <- Hg, length_fmap).
    cbn [all_images all_labels iter].
    destruct (class_cond (env_args env));
      rewrite ?length_app, ?length_fmap, ?Hlab, ?Himg, ?Hlen; split; lia || done.
  - simpl. split; [done|]. by destruct (class_cond (env_args env)).
Qed.

(** X9: a batch size or a world size below one never gets there.  When
    [num_samples >= 1] and [batch_size <= 0], or no worker contributes to
    the gather, the loop condition stays true: with no amount of fuel does
    the loop exit, so the run never completes and never reaches the
    barrier. *)
Theorem X9_loop_never_exits (env : Env) (fuel : nat) :
  1 ≤ num_samples (env_args env) →
  batch_size (env_args env) ≤ 0 ∨ env_world_size env ≤ 0 →
  (∀ st', (sampling_loop env fuel (init_state env)).1 ≠ Ok st')
  ∧ (main env fuel).1 ≠ Ok tt
  ∧ EvBarrier ∉ (main env fuel).2.
Proof.
  intros Hns Hbad.
  assert (∀ st', (sampling_loop env fuel (init_state env)).1 ≠ Ok st')
    as Hloop.
  { intros st' Hst'.
    pose proof (sampling_loop_exit env _ _ _ Hst') as Hexit.
    destruct (loop_lengths env _ _ Hst') as [Hlen _].
    unfold loop_cond in Hexit. apply Z.ltb_ge in Hexit.
    rewrite Hlen in Hexit. unfold workers in Hexit.
    rewrite length_seq in Hexit. destruct Hbad as [Hb|Hw]; [nia|].
    replace (Z.to_nat (env_world_size env)) with 0%nat in Hexit by lia.
    lia. }
  split; [done|].
  assert ((main env fuel).1 ≠ Ok tt) as Hmain.
  { rewrite main_outcome.
    destruct (sampling_loop env fuel (init_state env)).1 as [st| |] eqn:Hst;
      [by destruct (Hloop st)|done..]. }
  split; [done|].
  rewrite main_events. rewrite !elem_of_app.
  intros [H|[H|[H|H]]].
  - by apply (quiet_not_elem is_barrier) in H; [|apply setup_quiet|].
  - by apply list_elem_of_singleton in H.
  - by apply (quiet_not_elem is_barrier) in H; [|apply sampling_loop_quiet|].
  - destruct (sampling_loop env fuel (init_state env)).1 as [st| |] eqn:Hst;
      [by destruct (Hloop st)|by apply elem_of_nil in H..].
Qed.

(** X9 at work: a batch size of zero, with fuel for a hundred iterations. *)
Lemma X9_loop_never_exits_witness :
  let env := Example.env 4 0 false false 2 0 in
  (main env 100).1 ≠ Ok tt.
Proof.
  intros env.
  apply (X9_loop_never_exits env 100 ltac:(simpl; lia)
           ltac:(left; simpl; lia)).
Defined.

(** X10: the barrier is reached exactly by the runs that complete.  A run
    that raises, or that is still in its loop, has not called
    [dist.barrier]; one that completes has called it. *)
Theorem X10_barrier_iff_completed (env : Env) (fuel : nat) :
  EvBarrier ∈ (main env fuel).2 ↔ (main env fuel).1 = Ok tt.
Proof.
  rewrite main_outcome, main_events, !elem_of_app.
  split.
  - intros [H|[H|[H|H]]].
    + by apply (quiet_not_elem is_barrier) in H; [|apply setup_quiet|].
    + by apply list_elem_of_singleton in H.
    + by apply (quiet_not_elem is_barrier) in H;
        [|apply sampling_loop_quiet|].
    + destruct (sampling_loop env fuel (init_state env)).1 as [st| |];
        [|by apply elem_of_nil in H..].
      apply elem_of_app in H as [H|H].
      * by apply (quiet_not_elem is_barrier) in H;
          [|apply save_results_quiet|].
      * destruct (save_results env st).1 as [[]| |];
          [done|by apply elem_of_nil in H..].
  - intros Hok. do 3 right.
    destruct (sampling_loop env fuel (init_state env)).1 as [st| |];
      [|done..].
    rewrite Hok. apply elem_of_app. right. by left.
Qed.

(** X11: the labels keep step with the images.  When the loop exits,
    [all_images] holds one array per worker and iteration; with
    [class_cond], [all_labels] has as many entries, and without it
    [all_labels] is still empty.  This needs nothing of the external
    routines. *)
Theorem X11_labels_keep_step (env : Env) (fuel : nat) (st' : state) :
  (sampling_loop env fuel (init_state env)).1 = Ok st' →
  length (all_images st') = (iter st' * Z.to_nat (env_world_size env))%nat
  ∧ (if class_cond (env_args env)
     then length (all_labels st') = length (all_images st')
     else all_labels st' = []).
Proof.
  intros [Hlen Hlab]%loop_lengths. split; [|done].
  rewrite Hlen. unfold workers. by rewrite length_seq.
Qed.

(** X11 at work: three iterations on two workers. *)
Lemma X11_labels_keep_step_witness :
  let env := Example.env 6 1 true false 2 0 in
  ∃ st', (sampling_loop env 3 (init_state env)).1 = Ok st'
    ∧ length (all_images st') = 6%nat
    ∧ length (all_labels st') = 6%nat.
Proof.
  intros env. eexists. split; [vm_compute; reflexivity|].
  match goal with |- length (all_images ?s) = _ ∧ _ =>
    destruct (X11_labels_keep_step env 3 s ltac:(vm_compute; reflexivity))
      as [Himg Hlab]
  end.
  split; [exact Himg|exact (eq_trans Hlab Himg)].
Defined.

(** ** What the loop leaves behind *)

(** X12: the loop overshoots by less than one round.  When it exits, the
    workers have together made at least [num_samples] samples and fewer than
    [num_samples + batch_size * world_size]: what the truncation throws away
    is less than one iteration's worth.  The sampling routine is taken to
    return tensors of the requested shape. *)
Theorem X12_surplus_below_one_round (env : Env) (fuel : nat) :
  0 ≤ num_samples (env_args env) →
  1 ≤ batch_size (env_args env) →
  1 ≤ env_world_size env →
  sampler_shape_ok env →
  (iterations env ≤ fuel)%nat →
  ∃ st', (sampling_loop env fuel (init_state env)).1 = Ok st'
    ∧ num_samples (env_args env)
      ≤ Z.of_nat (length (all_images st')) * batch_size (env_args env)
      < num_samples (env_args env)
        + batch_size (env_args env) * env_world_size env.
Proof.
  intros Hsamples Hbatch Hworld Hsampler Hfuel.
  destruct (sampling_loop_after env Hsampler Hbatch Hworld
              (iterations env) 0 fuel eq_refl) as [Hloop _].
  specialize (Hloop Hfuel). rewrite <- init_state_after in Hloop.
  exists (state_after env (iterations env)). rewrite Hloop.
  split; [done|]. simpl. rewrite length_images_upto.
  unfold workers, iterations. rewrite length_seq.
  pose proof (ceil_div_spec (num_samples (env_args env))
                (batch_size (env_args env) * env_world_size env)
                ltac:(lia)) as Hc.
  set (c := ceil_div _ _) in *. nia.
Qed.

(** X12 at work: five samples, batches of two, two workers: eight made. *)
Lemma X12_surplus_below_one_round_witness :
  let env := Example.env 5 2 false false 2 0 in
  ∃ st', (sampling_loop env 2 (init_state env)).1 = Ok st'
    ∧ 5 ≤ Z.of_nat (length (all_images st')) * 2 < 9.
Proof.
  intros env.
  destruct (X12_surplus_below_one_round env 2 ltac:(simpl; lia)
              ltac:(simpl; lia) ltac:(simpl; lia)
              (example_sampler_shape_ok _ _ _ _ _ _) ltac:(vm_compute; lia))
    as (st' & Hst' & Hbounds).
  exists st'. split; [exact Hst'|exact Hbounds].
Defined.

(** X13: every worker ends the loop with the same arrays.  What a worker
    holds in [all_images] and [all_labels] when the loop exits does not
    depend on its rank, so the arrays rank 0 writes are the ones every
    worker has built.  The sampling routine is taken to return tensors of
    the requested shape. *)
Theorem X13_all_ranks_hold_the_same (env : Env) (rk : Z) (fuel : nat) :
  1 ≤ batch_size (env_args env) →
  1 ≤ env_world_size env →
  sampler_shape_ok env →
  (iterations env ≤ fuel)%nat →
  ∃ st st',
    (sampling_loop env fuel (init_state env)).1 = Ok st
    ∧ (sampling_loop (with_rank env rk) fuel
         (init_state (with_rank env rk))).1 = Ok st'
    ∧ all_images st' = all_images st
    ∧ all_labels st' = all_labels st
    ∧ iter st' = iter st.
Proof.
  intros Hbatch Hworld Hsampler Hfuel.
  destruct (sampling_loop_after env Hsampler Hbatch Hworld
              (iterations env) 0 fuel eq_refl) as [Hloop _].
  specialize (Hloop Hfuel). rewrite <- init_state_after in Hloop.
  destruct (sampling_loop_after (with_rank env rk) Hsampler Hbatch Hworld
              (iterations env) 0 fuel eq_refl) as [Hloop' _].
  specialize (Hloop' Hfuel). rewrite <- init_state_after in Hloop'.
  eexists _, _. rewrite Hloop, Hloop'. by split_and!.
Qed.

(** X13 at work: ranks 0 and 1 of two workers. *)
Lemma X13_all_ranks_hold_the_same_witness :
  let env := Example.env 3 1 true false 2 0 in
  ∃ st st',
    (sampling_loop env 2 (init_state env)).1 = Ok st
    ∧ (sampling_loop (with_rank env 1) 2 (init_state (with_rank env 1))).1
      = Ok st'
    ∧ all_images st' = all_images st
    ∧ all_labels st' = all_labels st.
Proof.
  intros env.
  destruct (X13_all_ranks_hold_the_same env 1 2 ltac:(simpl; lia)
              ltac:(simpl; lia) (example_sampler_shape_ok _ _ _ _ _ _)
              ltac:(vm_compute; lia))
    as (st & st' & Hst & Hst' & Himg & Hlab & _).
  by exists st, st'.
Defined.

(** ** Where the saved rows come from *)

Lemma join_fmap_bind {A B} (f : A → list B) (l : list A) :
  mjoin (f <$> l) = l ≫= f.
Proof. induction l as [|x l IH]; csimpl; [done|]. by rewrite IH. Qed.

Lemma lookup_bind_uniform {A B} (f : A → list B) (l : list A) (m i o : nat) :
  Forall (λ x, length (f x) = m) l → (o < m)%nat →
  (l ≫= f) !! (i * m + o)%nat = l !! i ≫= λ x, f x !! o.
Proof.
  intros Hall Ho. revert i.
  induction Hall as [|x l Hx _ IH]; intros i; csimpl; [done|].
  destruct i as [|i]; simpl.
  - by rewrite lookup_app_l by lia.
  - rewrite lookup_app_r by lia.
    replace (m + i * m + o - length (f x))%nat with (i * m + o)%nat by lia.
    apply IH.
Qed.

Lemma workers_lookup {A} (env : Env) (f : nat → A) (r : nat) :
  (r < Z.to_nat (env_world_size env))%nat →
  (f <$> workers env) !! r = Some (f r).
Proof.
  intros Hr. unfold workers. by rewrite list_lookup_fmap, lookup_seq_lt.
Qed.

Lemma images_upto_lookup (env : Env) (n k r : nat) :
  (k < n)%nat → (r < Z.to_nat (env_world_size env))%nat →
  images_upto env n !! (k * Z.to_nat (env_world_size env) + r)%nat
  = Some (image_of env r k).
Proof.
  intros Hk Hr. unfold images_upto.
  rewrite (lookup_bind_uniform _ _ (Z.to_nat (env_world_size env))); [| |done].
  - rewrite lookup_seq_lt by done. simpl. unfold gathered_images.
    by rewrite (workers_lookup env (λ r, image_of env r k)).
  - apply Forall_forall. intros k' _. unfold gathered_images, workers.
    by rewrite length_fmap, length_seq.
Qed.

Lemma labels_upto_lookup (env : Env) (n k r : nat) :
  class_cond (env_args env) = true →
  (k < n)%nat → (r < Z.to_nat (env_world_size env))%nat →
  labels_upto env n !! (k * Z.to_nat (env_world_size env) + r)%nat
  = Some (env_th_randint env r k).
Proof.
  intros Hcc Hk Hr. unfold labels_upto. rewrite Hcc.
  rewrite (lookup_bind_uniform _ _ (Z.to_nat (env_world_size env))); [| |done].
  - rewrite lookup_seq_lt by done. simpl. unfold gathered_labels.
    by rewrite (workers_lookup env (λ r, env_th_randint env r k)).
  - apply Forall_forall. intros k' _. unfold gathered_labels, workers.
    by rewrite length_fmap, length_seq.
Qed.

(** Position [j] among the samples: the iteration, the worker and the place
    in the batch it belongs to. *)
Lemma sample_position (B Wn N ns j : nat) :
  (1 ≤ B → 1 ≤ Wn → ns ≤ N * Wn * B → j < ns →
   j / B / Wn < N ∧ (j / B) mod Wn < Wn ∧ j mod B < B
   ∧ j / B = j / B / Wn * Wn + (j / B) mod Wn
   ∧ j = j / B * B + j mod B)%nat.
Proof.
  intros HB HW Hns Hj.
  pose proof (Nat.div_mod_eq j B) as H1.
  pose proof (Nat.div_mod_eq (j / B) Wn) as H2.
  pose proof (Nat.mod_upper_bound j B ltac:(lia)) as H3.
  pose proof (Nat.mod_upper_bound (j / B) Wn ltac:(lia)) as H4.
  split_and!; [|done|done|lia|lia].
  apply Nat.Div0.div_lt_upper_bound, Nat.Div0.div_lt_upper_bound. nia.
Qed.

Lemma samples_made (env : Env) :
  1 ≤ batch_size (env_args env) → 1 ≤ env_world_size env →
  (Z.to_nat (num_samples (env_args env))
   ≤ iterations env * Z.to_nat (env_world_size env)
     * Z.to_nat (batch_size (env_args env)))%nat.
Proof.
  intros Hbatch Hworld.
  pose proof (loop_exit_enough env Hbatch Hworld) as He.
  rewrite length_images_upto in He. unfold workers, batch_rows in He.
  rewrite length_seq in He. lia.
Qed.

(** What a completed run has written: the expected arrays. *)
Lemma main_writes_final_arrays (env : Env) (fuel : nat) :
  1 ≤ num_samples (env_args env) →
  1 ≤ batch_size (env_args env) →
  1 ≤ env_world_size env →
  sampler_shape_ok env →
  (class_cond (env_args env) = true → randint_shape_ok env) →
  (iterations env ≤ fuel)%nat →
  filter (λ e, is_savez e = true) (main env fuel).2
  = if env_rank env =? 0
    then [EvSavez (out_path_of env (final_images env)) (saved_arrays env)]
    else [].
Proof.
  intros Hsamples Hbatch Hworld Hsampler Hrandint Hfuel.
  rewrite (main_completes env Hsampler Hbatch Hworld Hsamples Hrandint
             fuel Hfuel).
  apply expected_trace_savez.
Qed.

(** X14: the order of the saved images.  Image [j] of the saved array is
    image [j mod batch_size] of the batch that worker
    [(j / batch_size) mod world_size] contributed in iteration
    [j / batch_size / world_size]: the rows run through the iterations, within
    an iteration through the ranks, within a batch in order.  The sampling
    routine is taken to return tensors of the requested shape. *)
Theorem X14_saved_images_order (env : Env) (j p : nat) :
  1 ≤ batch_size (env_args env) →
  1 ≤ env_world_size env →
  sampler_shape_ok env →
  (class_cond (env_args env) = true → randint_shape_ok env) →
  (j < Z.to_nat (num_samples (env_args env)))%nat →
  let B := Z.to_nat (batch_size (env_args env)) in
  let Wn := Z.to_nat (env_world_size env) in
  let P := (image_side env * image_side env * 3)%nat in
  let k := (j / B / Wn)%nat in
  let r := ((j / B) mod Wn)%nat in
  let b := (j mod B)%nat in
  (p < P)%nat →
  (k < iterations env)%nat ∧ (r < Wn)%nat ∧ (b < B)%nat
  ∧ contribution env r k = Ok (image_of env r k)
  ∧ data (final_images env) !! (j * P + p)%nat
    = data (image_of env r k) !! (b * P + p)%nat
  ∧ ∀ fuel, (iterations env ≤ fuel)%nat →
      filter (λ e, is_savez e = true) (main env fuel).2
      = if env_rank env =? 0
        then [EvSavez (out_path_of env (final_images env))
                (final_images env
                 :: (if class_cond (env_args env)
                     then [final_labels env] else []))]
        else [].
Proof.
  intros Hbatch Hworld Hsampler Hrandint Hj B Wn P k r b Hp.
  destruct (sample_position B Wn (iterations env) _ j
              ltac:(unfold B; lia) ltac:(unfold Wn; lia)
              (samples_made env Hbatch Hworld) Hj)
    as (Hk & Hr & Hb & Hq & Hjb).
  fold k r in Hk, Hr, Hq. fold b in Hb, Hjb.
  split_and!; [done|done|done|by apply contribution_ok| |];
    [|intros fuel Hfuel;
      by apply main_writes_final_arrays; [lia|..]].
  unfold final_images. cbn [data]. fold P.
  rewrite lookup_take_lt by nia.
  rewrite join_fmap_bind.
  replace (j * P + p)%nat with (j / B * (B * P) + (b * P + p))%nat by nia.
  rewrite (lookup_bind_uniform data _ (B * P)); [| |nia].
  - rewrite Hq. unfold Wn. rewrite images_upto_lookup by done. done.
  - pose proof (images_upto_data_lengths env Hsampler (iterations env)) as Hl.
    apply Forall_fmap in Hl. eapply Forall_impl; [exact Hl|].
    intros a Ha. simpl in Ha. rewrite Ha. unfold B, P, batch_rows. lia.
Qed.

(** X14 at work: sample 3 of five, in batches of two on two workers, is the
    second image of what worker 1 contributed in the first iteration. *)
Lemma X14_saved_images_order_witness :
  let env := Example.env 5 2 false false 2 0 in
  data (final_images env) !! (3 * 12 + 7)%nat
  = data (image_of env 1 0) !! (1 * 12 + 7)%nat.
Proof.
  intros env.
  apply (X14_saved_images_order env 3 7 ltac:(simpl; lia) ltac:(simpl; lia)
           (example_sampler_shape_ok _ _ _ _ _ _)
           (λ _, example_randint_shape_ok _ _ _ _ _ _)
           ltac:(vm_compute; lia) ltac:(vm_compute; lia)).
Defined.

(** X15: the saved labels belong to the saved images.  With [class_cond],
    entry [j] of the saved label array is the label at place
    [j mod batch_size] of the tensor that worker
    [(j / batch_size) mod world_size] drew in iteration
    [j / batch_size / world_size], which is the tensor that worker passed as
    [y] to the sampling call whose result gave image [j].  The external
    routines are taken to return the requested shapes. *)
Theorem X15_saved_labels_aligned (env : Env) (j : nat) :
  1 ≤ batch_size (env_args env) →
  1 ≤ env_world_size env →
  class_cond (env_args env) = true →
  sampler_shape_ok env →
  randint_shape_ok env →
  (j < Z.to_nat (num_samples (env_args env)))%nat →
  let B := Z.to_nat (batch_size (env_args env)) in
  let Wn := Z.to_nat (env_world_size env) in
  let k := (j / B / Wn)%nat in
  let r := ((j / B) mod Wn)%nat in
  let b := (j mod B)%nat in
  data (final_labels env) !! j = data (env_th_randint env r k) !! b
  ∧ (∀ gk, call_model_kwargs (make_call env r k gk) !! "y"
           = Some (env_th_randint env r k))
  ∧ ∀ fuel, (iterations env ≤ fuel)%nat →
      filter (λ e, is_savez e = true) (main env fuel).2
      = if env_rank env =? 0
        then [EvSavez (out_path_of env (final_images env))
                [final_images env; final_labels env]]
        else [].
Proof.
  intros Hbatch Hworld Hcc Hsampler Hrandint Hj B Wn k r b.
  destruct (sample_position B Wn (iterations env) _ j
              ltac:(unfold B; lia) ltac:(unfold Wn; lia)
              (samples_made env Hbatch Hworld) Hj)
    as (Hk & Hr & Hb & Hq & Hjb).
  fold k r in Hk, Hr, Hq. fold b in Hb, Hjb.
  split_and!.
  - unfold final_labels. cbn [data].
    rewrite lookup_take_lt by done. rewrite join_fmap_bind.
    rewrite Hjb at 1.
    rewrite (lookup_bind_uniform data _ B); [| |done].
    + rewrite Hq. unfold Wn. by rewrite labels_upto_lookup.
    + pose proof (labels_upto_ok env (λ _, Hrandint) (iterations env)) as Hl.
      eapply Forall_impl; [exact Hl|]. by intros a [_ ?].
  - intros gk. unfold make_call, draw_classes. simpl. rewrite Hcc. simpl.
    apply lookup_insert_eq.
  - intros fuel Hfuel.
    rewrite main_writes_final_arrays by (done || lia).
    unfold saved_arrays. by rewrite Hcc.
Qed.

(** X15 at work: label 3 of five is the second label worker 1 drew in the
    first iteration. *)
Lemma X15_saved_labels_aligned_witness :
  let env := Example.env 5 2 true false 2 0 in
  data (final_labels env) !! 3%nat = data (env_th_randint env 1 0) !! 1%nat.
Proof.
  intros env.
  apply (X15_saved_labels_aligned env 3 ltac:(simpl; lia) ltac:(simpl; lia)
           eq_refl (example_sampler_shape_ok _ _ _ _ _ _)
           (example_randint_shape_ok _ _ _ _ _ _)
           ltac:(vm_compute; lia)).
Defined.

(** ** The arguments of the sampling calls *)

(** X16: what else every sampling call is given.  In any run, whatever its
    outcome, every call passes [clip_denoised] as the command line has it;
    without [class_cond] the [model_kwargs] are empty, and with it they hold
    under [y], and nothing else, the labels this worker drew for the
    iteration, which are the tensor it then sends to the gather of labels. *)
Theorem X16_sampler_arguments (env : Env) (fuel : nat) :
  (∀ c, EvSample c ∈ (main env fuel).2 →
     call_clip_denoised c = clip_denoised (env_args env)
     ∧ if class_cond (env_args env)
       then ∃ k, call_model_kwargs c
                 = <["y" := env_th_randint env (me env) k]> ∅
       else call_model_kwargs c = ∅)
  ∧ (∀ st st', (loop_body env st).1 = Ok st' →
       class_cond (env_args env) = true →
       let classes := env_th_randint env (me env) (iter st) in
       EvSample (make_call env (me env) (iter st) (guidance_kwargs st))
         ∈ (loop_body env st).2
       ∧ call_model_kwargs
           (make_call env (me env) (iter st) (guidance_kwargs st)) !! "y"
         = Some classes
       ∧ EvAllGather (length (workers env)) classes ∈ (loop_body env st).2).
Proof.
  split.
  - intros c Hc%main_samples.
    apply (sampling_loop_samples env
             (λ c, call_clip_denoised c = clip_denoised (env_args env)
                   ∧ if class_cond (env_args env)
                     then ∃ k, call_model_kwargs c
                               = <["y" := env_th_randint env (me env) k]> ∅
                     else call_model_kwargs c = ∅)
             (λ _, True)) with fuel (init_state env); [|done|done|done].
    intros st _. split; [done|]. simpl. unfold draw_classes.
    destruct (class_cond (env_args env)); [|done]. by exists (iter st).
  - intros st st' (sample & gathered & _ & _ & _ & Hev)%loop_body_inv Hcc
      classes.
    rewrite Hev. unfold body_events. rewrite Hcc. split_and!.
    + apply elem_of_app. right. by left.
    + simpl. unfold draw_classes. rewrite Hcc. apply lookup_insert_eq.
    + apply elem_of_app. right. do 2 right. by left.
Qed.

(** X16 at work: the first call of a class-conditional run on rank 1. *)
Lemma X16_sampler_arguments_witness :
  let env := Example.env 2 1 true false 2 1 in
  ∃ c, (main env 1).2 !! 10%nat = Some (EvSample c)
    ∧ call_clip_denoised c = true
    ∧ ∃ k, call_model_kwargs c = <["y" := Example.labels 1 1 k]> ∅.
Proof.
  intros env. eexists. split; [vm_compute; reflexivity|].
  apply (proj1 (X16_sampler_arguments env 1)).
  eapply (list_elem_of_lookup_2 _ 10%nat). vm_compute; reflexivity.
Defined.

(** ** The map from raw values to pixels *)

Section PixelOrder.
Variable round : Q → fp.
Variable cast_nonfinite : Z.
Hypothesis Hround : rounding_ok round.

Lemma round_not_nan (q : Q) : round q ≠ NaN.
Proof.
  destruct Hround as [Hmono _]. intros H.
  pose proof (Hmono q q ltac:(lra)) as Hle. by rewrite H in Hle.
Qed.

Lemma fp_le_not_nan (x y : fp) : fp_le x y → x ≠ NaN ∧ y ≠ NaN.
Proof. by destruct x, y. Qed.

Lemma fp_le_NegInf (y : fp) : y ≠ NaN → fp_le NegInf y.
Proof. by destruct y. Qed.

Lemma fp_le_PosInf (x : fp) : x ≠ NaN → fp_le x PosInf.
Proof. by destruct x. Qed.

Lemma fadd_mono (x y : fp) (c : Q) :
  fp_le x y → fp_le (fadd round x c) (fadd round y c).
Proof.
  destruct Hround as [Hmono _].
  destruct x as [p| | |], y as [q| | |]; simpl; try done.
  - intros Hpq. apply Hmono. lra.
  - intros _. apply fp_le_PosInf, round_not_nan.
  - intros _. apply fp_le_NegInf, round_not_nan.
Qed.

Lemma fmul_pos_mono (x y : fp) (c : Q) :
  (0 < c)%Q → fp_le x y → fp_le (fmul_pos round x c) (fmul_pos round y c).
Proof.
  intros Hc. destruct Hround as [Hmono _].
  destruct x as [p| | |], y as [q| | |]; simpl; try done.
  - intros Hpq. apply Hmono. by apply Qmult_le_compat_r; [|lra].
  - intros _. apply fp_le_PosInf, round_not_nan.
  - intros _. apply fp_le_NegInf, round_not_nan.
Qed.

Lemma clamp_Fin_cases (q : Q) :
  ((q <= 0)%Q ∧ clamp 0 255 (Fin q) = Fin 0)
  ∨ ((0 < q)%Q ∧ (255 <= q)%Q ∧ clamp 0 255 (Fin q) = Fin 255)
  ∨ ((0 < q)%Q ∧ (q < 255)%Q ∧ clamp 0 255 (Fin q) = Fin q).
Proof.
  unfold clamp.
  destruct (Qle_bool q 0) eqn:H0.
  { left. split; [by apply Qle_bool_iff|done]. }
  assert (0 < q)%Q as Hpos.
  { apply Qnot_le_lt. intros H%Qle_bool_iff. congruence. }
  destruct (Qle_bool 255 q) eqn:H1.
  { right. left. split_and!; [done|by apply Qle_bool_iff|done]. }
  right. right. split_and!; [done| |done].
  apply Qnot_le_lt. intros H%Qle_bool_iff. congruence.
Qed.

(** Clamping a float that is not a NaN gives a number between the bounds,
    and keeps the order. *)
Lemma clamp_mono (x y : fp) :
  fp_le x y →
  ∃ a b, clamp 0 255 x = Fin a ∧ clamp 0 255 y = Fin b
    ∧ (0 <= a)%Q ∧ (a <= b)%Q ∧ (b <= 255)%Q.
Proof.
  destruct x as [p| | |], y as [q| | |]; try done; intros Hpq; simpl in Hpq;
    repeat match goal with
      | |- context [clamp 0 255 (Fin ?q)] =>
          destruct (clamp_Fin_cases q) as [[? ->]|[(? & ? & ->)|(? & ? & ->)]]
      end;
    simpl; eexists _, _; (split; [reflexivity|]); (split; [reflexivity|]);
    lra.
Qed.
End PixelOrder.

Lemma fp_between (a b : Q) (z : fp) :
  fp_le (Fin a) z → fp_le z (Fin b) → ∃ s, z = Fin s ∧ (a <= s <= b)%Q.
Proof. destruct z as [s| | |]; simpl; try done. intros ??. by exists s. Qed.

(** The pixel of a raw value whose scaled image is a known number. *)
Lemma pixel_of_scaled (round : Q → fp) (cast_nonfinite : Z) (x : fp) (a : Q) :
  clamp 0 255 (fmul_pos round (fadd round x 1) (255 # 2)) = Fin a →
  (0 <= a <= 255)%Q →
  pixel round cast_nonfinite x = Qfloor a.
Proof.
  intros Hc Ha. unfold pixel. rewrite Hc.
  rewrite (proj1 (to_uint8_in_byte_range cast_nonfinite a Ha)).
  by destruct a.
Qed.

(** X17: the map from raw values to pixels keeps the order and saturates.
    For every float rounding that is monotone and exact on 0, 2 and 255, a
    larger raw value never gives a smaller pixel; raw values up to [-1], and
    minus infinity, give 0, and raw values from [1] on, and plus infinity,
    give 255. *)
Theorem X17_pixel_monotone_saturating (round : Q → fp) (cast_nonfinite : Z) :
  rounding_ok round →
  let px := pixel round cast_nonfinite in
  (∀ x y, fp_le x y → px x ≤ px y)
  ∧ (∀ q, (q <= -1)%Q → px (Fin q) = 0)
  ∧ (∀ q, (1 <= q)%Q → px (Fin q) = 255)
  ∧ px NegInf = 0 ∧ px PosInf = 255.
Proof.
  intros Hround px.
  assert (∀ x y, fp_le x y → px x ≤ px y) as Hmono.
  { intros x y Hxy.
    destruct (clamp_mono
                (fmul_pos round (fadd round x 1) (255 # 2))
                (fmul_pos round (fadd round y 1) (255 # 2)))
      as (a & b & Ha & Hb & H0 & Hab & H255).
    { apply fmul_pos_mono; [done|reflexivity|]. by apply fadd_mono. }
    unfold px. rewrite (pixel_of_scaled _ _ x a), (pixel_of_scaled _ _ y b);
      [|done|lra|done|lra].
    by apply Qfloor_resp_le. }
  destruct Hround as (Hm & H0 & H2 & H255).
  assert (px (Fin (-1)) = 0) as Hlow.
  { destruct (fp_between 0 0 (round (0 * (255 # 2))%Q))
      as (s & Hs & Hrange).
    - rewrite <- H0. apply Hm. lra.
    - rewrite <- H0. apply Hm. lra.
    - unfold px, pixel. simpl. change (round (-1 + 1)%Q) with (round 0%Q).
      rewrite H0. simpl. rewrite Hs.
      destruct (clamp_Fin_cases s) as [[? ->]|[(? & ? & ->)|(? & ? & ->)]];
        [reflexivity|lra..]. }
  assert (px (Fin 1) = 255) as Hhigh.
  { destruct (fp_between 255 255 (round (2 * (255 # 2))%Q))
      as (s & Hs & Hrange).
    - rewrite <- H255. apply Hm. lra.
    - rewrite <- H255. apply Hm. lra.
    - unfold px, pixel. simpl. change (round (1 + 1)%Q) with (round 2%Q).
      rewrite H2. simpl. rewrite Hs.
      destruct (clamp_Fin_cases s) as [[? ->]|[(? & ? & ->)|(? & ? & ->)]];
        [lra|reflexivity|lra]. }
  split_and!; [done| | |reflexivity|reflexivity].
  - intros q Hq. pose proof (Hmono (Fin q) (Fin (-1)) Hq).
    pose proof (pixel_range round cast_nonfinite (Fin q)). unfold px in *. lia.
  - intros q Hq. pose proof (Hmono (Fin 1) (Fin q) Hq).
    pose proof (pixel_range round cast_nonfinite (Fin q)). unfold px in *. lia.
Qed.

(** X17 at work, in exact arithmetic. *)
Lemma X17_pixel_monotone_saturating_witness :
  pixel Fin 0 (Fin (-3 # 2)) = 0 ∧ pixel Fin 0 (Fin (7 # 2)) = 255
  ∧ pixel Fin 0 (Fin (1 # 10)) ≤ pixel Fin 0 (Fin (1 # 5)).
Proof.
  assert (rounding_ok Fin) as Hround.
  { split; [by intros p q Hpq|by split_and!]. }
  destruct (X17_pixel_monotone_saturating Fin 0 Hround)
    as (Hmono & Hlow & Hhigh & _).
  split; [apply Hlow; by vm_compute|].
  split; [apply Hhigh; by vm_compute|].
  apply Hmono. by vm_compute.
Defined.

(** ** The progress log *)

(** X18: the progress messages count the samples of all workers.  In a run
    with the fuel for its iterations, iteration [k] (from 0) logs
    [created n samples] with [n = (k + 1) * world_size * batch_size]: the
    number gathered so far over all workers, which in the last message may
    exceed [num_samples].  The sampling routine is taken to return tensors
    of the requested shape. *)
Theorem X18_progress_log (env : Env) (fuel k : nat) :
  1 ≤ batch_size (env_args env) →
  1 ≤ env_world_size env →
  sampler_shape_ok env →
  (iterations env ≤ fuel)%nat →
  (k < iterations env)%nat →
  EvLog ("created "
         +:+ pretty ((Z.of_nat k + 1) * env_world_size env
                     * batch_size (env_args env))
         +:+ " samples") ∈ (main env fuel).2.
Proof.
  intros Hbatch Hworld Hsampler Hfuel Hk.
  destruct (sampling_loop_after env Hsampler Hbatch Hworld
              (iterations env) 0 fuel eq_refl) as [Hloop _].
  specialize (Hloop Hfuel). rewrite <- init_state_after in Hloop.
  rewrite main_events, Hloop. cbn [fst snd].
  apply elem_of_app. right. apply elem_of_app. right.
  apply elem_of_app. left.
  apply list_elem_of_bind. exists k. split; [|by apply elem_of_seq; lia].
  unfold iteration_events, body_events.
  rewrite length_images_upto. unfold workers. rewrite length_seq.
  replace (Z.of_nat (S k * Z.to_nat (env_world_size env)))
    with ((Z.of_nat k + 1) * env_world_size env) by lia.
  rewrite !elem_of_app. do 3 right. by left.
Qed.

(** X18 at work: the second message of a run for five samples. *)
Lemma X18_progress_log_witness :
  let env := Example.env 5 2 false false 2 0 in
  EvLog "created 8 samples" ∈ (main env 2).2.
Proof.
  intros env.
  apply (X18_progress_log env 2 1 ltac:(simpl; lia) ltac:(simpl; lia)
           (example_sampler_shape_ok _ _ _ _ _ _)
           ltac:(vm_compute; lia) ltac:(vm_compute; lia)).
Defined.
